(** * build-own-zod: a runtime schema-validation engine

    Shallow embedding of the two encodings found in the repository:

    - [Schema]   : the interface-based encoding of [src/schema.ts], where a
                   schema is an object literal carrying its own [parse];
    - [ZodClass] : the class-based encoding (classes [ZodOptional],
                   [ZodUnion], [ZodIntersection], [ZodUnknown], [ZodString],
                   [ZodNumber], [ZodArray], [ZodObject]);
    - [Store]    : the refinement methods [min]/[max] of the class-based
                   encoding over an explicit store of checker arrays, to
                   talk about (non-)mutation of the receiver.

    JavaScript exceptions are modelled by a completion type
    ([Return] / [Throw]); the thrown object keeps its class, because the
    [catch] blocks of the source branch on [instanceof TypeError]. *)

From Stdlib Require Import ZArith String Ascii List Bool Lia DecimalString.
From stdpp Require Import base option list gmap strings.

Local Open Scope string_scope.
Local Open Scope list_scope.
Set Warnings "-register-all".

(* ===================================================================== *)
(** * JavaScript values, exceptions and the few primitives the code uses *)
(* ===================================================================== *)

Module JS.

(** JavaScript numbers.  A finite number is given by a decimal numeral
    [m * 10^e]: the one JavaScript prints for it, which determines the
    number and keeps the order of the numbers; [-0] is not told apart
    from [0], which neither the comparisons nor the template literals
    do. *)
Inductive number : Type :=
  | NaN
  | Infinity (negative : bool)
  | Dec (m e : Z).

(** The integers, written as literals: [3] is [Dec 3 0]. *)
Definition Int (z : Z) : number := Dec z 0.

Definition number_to_Z (x : number) : option Z :=
  match x with Dec m 0 => Some m | _ => None end.

Declare Scope number_scope.
Delimit Scope number_scope with num.
Bind Scope number_scope with number.
Number Notation number Int number_to_Z : number_scope.

(** [m1 * 10^e1 <= m2 * 10^e2], both sides scaled to the smaller
    exponent. *)
Definition dec_leb (m1 e1 m2 e2 : Z) : bool :=
  let e := Z.min e1 e2 in
  Z.leb (m1 * 10 ^ (e1 - e)) (m2 * 10 ^ (e2 - e)).

(** [x <= y]: false as soon as one side is [NaN]. *)
Definition num_leb (x y : number) : bool :=
  match x, y with
  | NaN, _ | _, NaN => false
  | Infinity true, _ => true
  | _, Infinity false => true
  | Infinity false, _ => false
  | _, Infinity true => false
  | Dec m1 e1, Dec m2 e2 => dec_leb m1 e1 m2 e2
  end.

(** [x >= y] *)
Definition num_geb (x y : number) : bool := num_leb y x.

(** [x < y] *)
Definition num_ltb (x y : number) : bool :=
  num_leb x y && negb (num_leb y x).

(** Trailing zeros of a digit string given in reverse: what is left, and
    how many were dropped. *)
Fixpoint strip_zeros (rev_digits : list ascii) : list ascii * nat :=
  match rev_digits with
  | "0"%char :: rest => let '(s, r) := strip_zeros rest in (s, S r)
  | _ => (rev_digits, 0)
  end.

Fixpoint zeros (n : nat) : string :=
  match n with O => "" | S n' => "0" +:+ zeros n' end.

Definition digits_of (m : Z) : string :=
  NilZero.string_of_uint (N.to_uint (Z.abs_N m)).

(** Number-to-string conversion as used by template literals
    ([Number::toString] with radix 10): with [s] the digits without
    trailing zeros, [k] their count and [n] the position of the decimal
    point, plain digits up to 21 integer digits, a leading ["0."] down to
    [1e-6], exponent notation beyond. *)
Definition Number_toString (x : number) : string :=
  match x with
  | NaN => "NaN"
  | Infinity false => "Infinity"
  | Infinity true => "-Infinity"
  | Dec m e =>
      if Z.eqb m 0 then "0" else
      let '(rev_s, r) :=
        strip_zeros (List.rev (list_ascii_of_string (digits_of m))) in
      let s := string_of_list_ascii (List.rev rev_s) in
      let k := Z.of_nat (String.length s) in
      let n := (k + Z.of_nat r + e)%Z in
      let body :=
        if (k <=? n)%Z && (n <=? 21)%Z then s +:+ zeros (Z.to_nat (n - k))
        else if (0 <? n)%Z && (n <=? 21)%Z then
          substring 0 (Z.to_nat n) s +:+ "." +:+
          substring (Z.to_nat n) (Z.to_nat (k - n)) s
        else if (-6 <? n)%Z && (n <=? 0)%Z then
          "0." +:+ zeros (Z.to_nat (- n)) +:+ s
        else
          let mantissa :=
            if (k =? 1)%Z then s
            else substring 0 1 s +:+ "." +:+ substring 1 (Z.to_nat (k - 1)) s in
          mantissa +:+ "e" +:+ (if (n - 1 <? 0)%Z then "-" else "+")
                   +:+ digits_of (n - 1)
      in if (m <? 0)%Z then "-" +:+ body else body
  end.

(** The untyped inputs ([unknown]) handed to [parse].  Arrays are dense;
    an object is an ordinary object (its prototype is
    [Object.prototype]) given by its [Object.entries] listing: its own
    enumerable string-keyed properties, in enumeration order.
    [VObjectPrototype] is [Object.prototype] itself, which a read of
    [__proto__] hands out.  Functions, symbols and big integers only
    matter through their [typeof]. *)
Inductive value : Type :=
  | VUndefined
  | VNull
  | VBoolean (b : bool)
  | VNumber (n : number)
  | VString (s : string)
  | VBigInt (n : Z)
  | VSymbol (description : string)
  | VFunction (name : string)
  | VArray (items : list value)
  | VObject (props : list (string * value))
  | VObjectPrototype.

(** Result of the [typeof] operator. *)
Inductive type_tag : Type :=
  | TyUndefined | TyObject | TyBoolean | TyNumber | TyString
  | TyBigint | TySymbol | TyFunction.

Definition typeof (v : value) : type_tag :=
  match v with
  | VUndefined => TyUndefined
  | VNull => TyObject
  | VBoolean _ => TyBoolean
  | VNumber _ => TyNumber
  | VString _ => TyString
  | VBigInt _ => TyBigint
  | VSymbol _ => TySymbol
  | VFunction _ => TyFunction
  | VArray _ => TyObject
  | VObject _ => TyObject
  | VObjectPrototype => TyObject
  end.

Definition type_tag_eqb (a b : type_tag) : bool :=
  match a, b with
  | TyUndefined, TyUndefined | TyObject, TyObject | TyBoolean, TyBoolean
  | TyNumber, TyNumber | TyString, TyString | TyBigint, TyBigint
  | TySymbol, TySymbol | TyFunction, TyFunction => true
  | _, _ => false
  end.

(** [value === undefined] *)
Definition strict_eq_undefined (v : value) : bool :=
  match v with VUndefined => true | _ => false end.

(** [value === null] *)
Definition strict_eq_null (v : value) : bool :=
  match v with VNull => true | _ => false end.

(** [value == null] (loose equality: also true of [undefined]) *)
Definition loose_eq_null (v : value) : bool :=
  match v with VNull | VUndefined => true | _ => false end.

(** Classes of the objects that get thrown. [ZodTypeError] is the subclass
    of [Error] declared in [src/schema.ts]; [OtherError] stands for any
    further class a user-supplied checker may throw. *)
Inductive error_class : Type :=
  | Error
  | TypeError
  | ZodTypeError
  | OtherError (name : string).

Record exn : Type := mkExn { cls : error_class; msg : string }.

(** [error instanceof TypeError] *)
Definition instanceof_TypeError (e : exn) : bool :=
  match cls e with TypeError => true | _ => false end.

(** A call either returns or throws. *)
Inductive completion (A : Type) : Type :=
  | Return (a : A)
  | Throw (e : exn).
Arguments Return {A} a.
Arguments Throw {A} e.

Definition succeeds {A} (c : completion A) : bool :=
  match c with Return _ => true | Throw _ => false end.

Definition fails {A} (c : completion A) : bool := negb (succeeds c).

Definition string_of_nat (n : nat) : string :=
  NilZero.string_of_uint (Nat.to_uint n).

(** The line feed of the ['\n'] escapes. *)
Definition LF : string := String (ascii_of_nat 10) EmptyString.

(** [messages.join('\n')] *)
Definition join (sep : string) (l : list string) : string :=
  String.concat sep l.

(** First binding of a key in an entries listing. *)
Fixpoint assoc {A : Type} (k : string) (l : list (string * A)) : option A :=
  match l with
  | [] => None
  | (k', a) :: rest => if String.eqb k' k then Some a else assoc k rest
  end.

(** [Object.entries] of a dense array: index keys in ascending order. *)
Definition array_entries (items : list value) : list (string * value) :=
  imap (fun i v => (string_of_nat i, v)) items.

(** [Object.entries(value)] for a value whose [typeof] is ['object'] and
    that is not [null]. *)
Definition entries (v : value) : list (string * value) :=
  match v with
  | VArray items => array_entries items
  | VObject props => props
  | _ => []
  end.

(** Names of the methods of [Object.prototype] and of [Array.prototype]
    (ECMAScript 2023, Annex B included). *)
Definition Object_prototype_methods : list string :=
  ["__defineGetter__"; "__defineSetter__"; "hasOwnProperty";
   "__lookupGetter__"; "__lookupSetter__"; "isPrototypeOf";
   "propertyIsEnumerable"; "toString"; "valueOf"; "toLocaleString"].

Definition Array_prototype_methods : list string :=
  ["at"; "concat"; "copyWithin"; "fill"; "find"; "findIndex"; "findLast";
   "findLastIndex"; "lastIndexOf"; "pop"; "push"; "reverse"; "shift";
   "unshift"; "slice"; "sort"; "splice"; "includes"; "indexOf"; "join";
   "keys"; "entries"; "values"; "forEach"; "filter"; "flat"; "flatMap";
   "map"; "every"; "some"; "reduce"; "reduceRight"; "toLocaleString";
   "toString"; "toReversed"; "toSorted"; "toSpliced"; "with"].

Definition mem (k : string) (names : list string) : bool :=
  existsb (String.eqb k) names.

(** A property read that reaches [Object.prototype]; [proto] is what the
    [__proto__] accessor returns for the receiver. *)
Definition Object_prototype_get (proto : value) (k : string) : value :=
  if String.eqb k "__proto__" then proto
  else if String.eqb k "constructor" then VFunction "Object"
  else if mem k Object_prototype_methods then VFunction k
  else VUndefined.

(** A property read on an array that reaches [Array.prototype].  That
    prototype is itself an empty array and is handed out as one, so its
    own prototype is not told apart from it. *)
Definition Array_prototype_get (k : string) : value :=
  if String.eqb k "constructor" then VFunction "Array"
  else if mem k Array_prototype_methods then VFunction k
  else Object_prototype_get (VArray []) k.

(** [recordValue[k]]: an own property if there is one, else what the
    prototype chain holds under [k], else [undefined]. *)
Definition get (v : value) (k : string) : value :=
  match v with
  | VObject props =>
      match assoc k props with
      | Some x => x
      | None => Object_prototype_get VObjectPrototype k
      end
  | VArray items =>
      if String.eqb k "length" then VNumber (Int (Z.of_nat (length items)))
      else match assoc k (array_entries items) with
           | Some x => x
           | None => Array_prototype_get k
           end
  | VObjectPrototype => Object_prototype_get VNull k
  | _ => VUndefined
  end.

(** [for (const v of items) f(v)] where [f] may throw. *)
Fixpoint for_of {A B : Type} (f : A -> completion B) (items : list A)
  : completion unit :=
  match items with
  | [] => Return tt
  | v :: rest =>
      match f v with
      | Throw e => Throw e
      | Return _ => for_of f rest
      end
  end.

(** [items.map(f)] where [f] may throw. *)
Fixpoint map_items {A B : Type} (f : A -> completion B) (items : list A)
  : completion (list B) :=
  match items with
  | [] => Return []
  | v :: rest =>
      match f v with
      | Throw e => Throw e
      | Return w =>
          match map_items f rest with
          | Throw e => Throw e
          | Return ws => Return (w :: ws)
          end
      end
  end.

End JS.
Import JS.

(* ===================================================================== *)
(** * The class-based encoding                                            *)
(* ===================================================================== *)

Module ZodClass.

(** [interface ZodChecker<T>]: a message and a predicate.  The predicate
    is a JavaScript function, so calling it may also throw. *)
Record ZodChecker (T : Type) : Type := mkChecker {
  message : string;
  checker : T -> completion bool
}.
Arguments mkChecker {T} message checker.
Arguments message {T} z.
Arguments checker {T} z.

(** [interface ZodStringDefine] / [ZodNumberDefine]: [checkers?]. *)
Record ZodStringDefine : Type := mkStringDefine {
  string_checkers : option (list (ZodChecker string))
}.

Record ZodNumberDefine : Type := mkNumberDefine {
  number_checkers : option (list (ZodChecker number))
}.

(** The classes extending [ZodType]; the constructor arguments are the
    [readonly] members.  [fields] is the [Object.entries] listing of the
    record handed to [ZodObject.create]. *)
Inductive ZodType : Type :=
  | ZodOptional (type : ZodType)
  | ZodUnion (types : list ZodType)
  | ZodIntersection (left right : ZodType)
  | ZodUnknown
  | ZodString (definition : option ZodStringDefine)
  | ZodNumber (definition : option ZodNumberDefine)
  | ZodArray (element : ZodType)
  | ZodObject (fields : list (string * ZodType)).

(** [this.definition?.checkers ?? []] *)
Definition checkers_of_string (definition : option ZodStringDefine)
  : list (ZodChecker string) :=
  match definition with
  | Some d => default [] (string_checkers d)
  | None => []
  end.

Definition checkers_of_number (definition : option ZodNumberDefine)
  : list (ZodChecker number) :=
  match definition with
  | Some d => default [] (number_checkers d)
  | None => []
  end.

(** The [for (const checker of checkers)] loop of [ZodString.parse] and
    [ZodNumber.parse]. *)
Fixpoint run_checkers {T : Type} (checkers : list (ZodChecker T)) (value : T)
  : completion unit :=
  match checkers with
  | [] => Return tt
  | c :: rest =>
      match checker c value with
      | Throw e => Throw e
      | Return true => run_checkers rest value
      | Return false => Throw (mkExn Error (message c))
      end
  end.

(** [`Invalid values: \n ${messages}`] *)
Definition invalid_values (errors : list exn) : exn :=
  mkExn Error
    ("Invalid values: " ++ LF ++ " " ++ join LF (map msg errors)).

Section Loops.
Variable parse : ZodType -> value -> completion value.

(** The [for (const type of this.types)] loop of [ZodUnion.parse],
    followed by the test after the loop; [total] is
    [this.types.length]. *)
Fixpoint ZodUnion_loop (total : nat) (value : value)
    (types : list ZodType) (errors : list exn) : completion JS.value :=
  match types with
  | [] =>
      if Nat.eqb (length errors) total
      then Throw (invalid_values errors)
      else Return VUndefined
  | type :: rest =>
      match parse type value with
      | Return r => Return r
      | Throw error =>
          if instanceof_TypeError error
          then ZodUnion_loop total value rest (errors ++ [error])
          else ZodUnion_loop total value rest errors
      end
  end.

(** One [try { side.parse(value) } catch (error) { ... }] block of
    [ZodIntersection.parse]. *)
Definition ZodIntersection_try (side : ZodType) (value : value)
    (errors : list exn) : list exn :=
  match parse side value with
  | Return _ => errors
  | Throw error =>
      if instanceof_TypeError error then errors ++ [error] else errors
  end.

(** The [for (const [k, v] of Object.entries(this.fields))] loop of
    [ZodObject.parse]. *)
Fixpoint ZodObject_loop (recordValue : value)
    (fields : list (string * ZodType)) : completion unit :=
  match fields with
  | [] => Return tt
  | (k, v) :: rest =>
      match parse v (get recordValue k) with
      | Throw e => Throw e
      | Return _ => ZodObject_loop recordValue rest
      end
  end.
End Loops.

Fixpoint parse (t : ZodType) (value : value) {struct t}
  : completion JS.value :=
  match t with
  | ZodOptional type =>
      if strict_eq_undefined value then Return VUndefined
      else parse type value
  | ZodUnion types =>
      ZodUnion_loop parse (length types) value types []
  | ZodIntersection this_left this_right =>
      let errors := ZodIntersection_try parse this_left value [] in
      let errors := ZodIntersection_try parse this_right value errors in
      if Nat.eqb (length errors) 2
      then Throw (invalid_values errors)
      else Return value
  | ZodUnknown => Return value
  | ZodString definition =>
      match value with
      | VString s =>
          match run_checkers (checkers_of_string definition) s with
          | Throw e => Throw e
          | Return _ => Return value
          end
      | _ => Throw (mkExn TypeError "Not a string")
      end
  | ZodNumber definition =>
      match value with
      | VNumber n =>
          match run_checkers (checkers_of_number definition) n with
          | Throw e => Throw e
          | Return _ => Return value
          end
      | _ => Throw (mkExn TypeError "Not a number")
      end
  | ZodArray element =>
      match value with
      | VArray items =>
          match for_of (parse element) items with
          | Throw e => Throw e
          | Return _ => Return value
          end
      | _ => Throw (mkExn TypeError "Not an array")
      end
  | ZodObject fields =>
      if negb (type_tag_eqb (typeof value) TyObject) || loose_eq_null value
      then Throw (mkExn Error "Not an object")
      else
        match ZodObject_loop parse value fields with
        | Throw e => Throw e
        | Return _ => Return value
        end
  end.

(** The checkers built by the four refinement methods. *)
Definition string_min_checker (min : number) : ZodChecker string :=
  mkChecker
    ("Must be at least " ++ Number_toString min ++ " characters")
    (fun value => Return (num_geb (Int (Z.of_nat (String.length value))) min)).

Definition string_max_checker (max : number) : ZodChecker string :=
  mkChecker
    ("Must be at most " ++ Number_toString max ++ " characters")
    (fun value => Return (num_leb (Int (Z.of_nat (String.length value))) max)).

Definition number_min_checker (min : number) : ZodChecker number :=
  mkChecker ("Must be at least " ++ Number_toString min)
            (fun value => Return (num_geb value min)).

Definition number_max_checker (max : number) : ZodChecker number :=
  mkChecker ("Must be at most " ++ Number_toString max)
            (fun value => Return (num_leb value max)).

(** [ZodString.create(definition)] and [ZodNumber.create(definition)]. *)
Definition ZodString_create (definition : option ZodStringDefine) : ZodType :=
  ZodString definition.

Definition ZodNumber_create (definition : option ZodNumberDefine) : ZodType :=
  ZodNumber definition.

(** [min] / [max] of [ZodString] and [ZodNumber]; the receiver is given by
    its [definition] member. *)
Definition ZodString_min (this : option ZodStringDefine) (min : number) : ZodType :=
  let checkers := checkers_of_string this in
  ZodString_create
    (Some (mkStringDefine (Some (checkers ++ [string_min_checker min])))).

Definition ZodString_max (this : option ZodStringDefine) (max : number) : ZodType :=
  let checkers := checkers_of_string this in
  ZodString_create
    (Some (mkStringDefine (Some (checkers ++ [string_max_checker max])))).

Definition ZodNumber_min (this : option ZodNumberDefine) (min : number) : ZodType :=
  let checkers := checkers_of_number this in
  ZodNumber_create
    (Some (mkNumberDefine (Some (checkers ++ [number_min_checker min])))).

Definition ZodNumber_max (this : option ZodNumberDefine) (max : number) : ZodType :=
  let checkers := checkers_of_number this in
  ZodNumber_create
    (Some (mkNumberDefine (Some (checkers ++ [number_max_checker max])))).

(** The methods of the abstract class [ZodType]. *)
Definition optional (this : ZodType) : ZodType := ZodOptional this.
Definition or (this type : ZodType) : ZodType := ZodUnion [this; type].
Definition and (this type : ZodType) : ZodType := ZodIntersection this type.

End ZodClass.

(* ===================================================================== *)
(** * The interface-based encoding of [src/schema.ts]                     *)
(* ===================================================================== *)

Module Schema.

(** [type ZodType = ZodUnknown | ZodString | ZodNumber | ZodArray<..>
    | ZodObject<..>]; the constructors stand for the object literals
    returned by [unknown()], [string()], [number()], [array(element)] and
    [object(fields)]. *)
Inductive ZodType : Type :=
  | ZodUnknown
  | ZodString
  | ZodNumber
  | ZodArray (element : ZodType)
  | ZodObject (fields : list (string * ZodType)).

Section Fields.
Variable parse : ZodType -> value -> completion value.

(** What [fields[key].parse(value)] throws when [key] is not a field of
    the schema: [fields] is an ordinary object, so [fields[key]] is
    either [undefined], and the member access throws, or a member
    inherited from [Object.prototype], which has no [parse] to call.
    Either way a built-in [TypeError]. *)
Definition missing_field (key : string) : exn :=
  match Object_prototype_get VObjectPrototype key with
  | VUndefined =>
      mkExn TypeError "Cannot read properties of undefined (reading 'parse')"
  | _ => mkExn TypeError "fields[key].parse is not a function"
  end.

(** [fields[key].parse(value)] *)
Fixpoint call_field_parse (fields : list (string * ZodType))
    (key : string) (value : value) : completion JS.value :=
  match fields with
  | [] => Throw (missing_field key)
  | (k, t) :: rest =>
      if String.eqb k key then parse t value
      else call_field_parse rest key value
  end.
End Fields.

Fixpoint parse (t : ZodType) (value : value) {struct t}
  : completion JS.value :=
  match t with
  | ZodString =>
      match value with
      | VString _ => Return value
      | _ => Throw (mkExn ZodTypeError "Invalid string")
      end
  | ZodNumber =>
      match value with
      | VNumber _ => Return value
      | _ => Throw (mkExn ZodTypeError "Invalid number")
      end
  | ZodUnknown => Return value
  | ZodArray element =>
      match value with
      | VArray items =>
          match map_items (parse element) items with
          | Throw e => Throw e
          | Return parsed => Return (VArray parsed)
          end
      | _ => Throw (mkExn ZodTypeError "Invalid array")
      end
  | ZodObject fields =>
      if negb (type_tag_eqb (typeof value) TyObject) || strict_eq_null value
      then Throw (mkExn ZodTypeError "Invalid object")
      else
        match
          for_of (fun '(key, value) => call_field_parse parse fields key value)
                 (entries value)
        with
        | Throw e => Throw e
        | Return _ => Return value
        end
  end.

End Schema.

(** Schemas "expressible in both" encodings: the interface-based schema
    read as a class-based one (leaves without refinements). *)
Fixpoint to_class (t : Schema.ZodType) : ZodClass.ZodType :=
  match t with
  | Schema.ZodUnknown => ZodClass.ZodUnknown
  | Schema.ZodString => ZodClass.ZodString_create None
  | Schema.ZodNumber => ZodClass.ZodNumber_create None
  | Schema.ZodArray element => ZodClass.ZodArray (to_class element)
  | Schema.ZodObject fields =>
      ZodClass.ZodObject (map (fun '(k, t) => (k, to_class t)) fields)
  end.

(* ===================================================================== *)
(** * Refinement methods over an explicit store of checker arrays         *)
(* ===================================================================== *)

(** In the source a leaf instance points to a definition object whose
    [checkers] member points to an array, and arrays are mutable objects.
    To state that [min] / [max] leave the receiver alone, the arrays live
    in a store and an instance only holds a reference. *)
Module Store.
Import ZodClass.

(** A definition object [{ checkers: <array> }]. *)
Record Define : Type := mkDefine { checkers : option positive }.

(** A [ZodString] or [ZodNumber] instance: its [definition] member. *)
Record Inst : Type := mkInst { definition : option Define }.

Section Refinement.
Context {T : Type}.
Local Abbreviation store := (gmap positive (list (ZodChecker T))).

(** [this.definition?.checkers ?? []] *)
Definition checkers_of (σ : store) (this : Inst) : list (ZodChecker T) :=
  match definition this with
  | Some d =>
      match checkers d with
      | Some l => default [] (σ !! l)
      | None => []
      end
  | None => []
  end.

(** The reference held by an instance, if any, points to an array. *)
Definition valid (σ : store) (this : Inst) : bool :=
  match definition this with
  | Some d =>
      match checkers d with
      | Some l => bool_decide (is_Some (σ !! l))
      | None => true
      end
  | None => true
  end.

(** Evaluation of an array literal: a fresh array object. *)
Definition alloc (σ : store) (arr : list (ZodChecker T))
  : positive * store :=
  let l := fresh (dom σ) in (l, <[l := arr]> σ).

(** [return Zod*.create({ checkers: [...checkers, c] })] *)
Definition refine (c : ZodChecker T) (this : Inst) (σ : store)
  : Inst * store :=
  let checkers := checkers_of σ this in
  let '(l, σ') := alloc σ (checkers ++ [c]) in
  (mkInst (Some (mkDefine (Some l))), σ').

(** Any number of refinement calls, each on some receiver. *)
Definition run_calls (calls : list (ZodChecker T * Inst)) (σ : store)
  : store :=
  foldl (fun σ call => (refine call.1 call.2 σ).2) σ calls.
End Refinement.

Definition ZodString_min (this : Inst) (min : number) :=
  refine (string_min_checker min) this.
Definition ZodString_max (this : Inst) (max : number) :=
  refine (string_max_checker max) this.
Definition ZodNumber_min (this : Inst) (min : number) :=
  refine (number_min_checker min) this.
Definition ZodNumber_max (this : Inst) (max : number) :=
  refine (number_max_checker max) this.

(** The class-based schema an instance denotes in a given store. *)
Definition string_schema (σ : gmap positive (list (ZodChecker string)))
    (this : Inst) : ZodType :=
  ZodString (Some (mkStringDefine (Some (checkers_of σ this)))).

Definition number_schema (σ : gmap positive (list (ZodChecker number)))
    (this : Inst) : ZodType :=
  ZodNumber (Some (mkNumberDefine (Some (checkers_of σ this)))).

End Store.

(* ===================================================================== *)
(** * Vocabulary of the statements                                        *)
(* ===================================================================== *)

Import ZodClass.

(** Failure kinds of the specification, read off a thrown object: the
    type-check failures of [ZodString], [ZodNumber] and [ZodArray] are
    [TypeError]s, every other failure the engine raises (a rejected
    refinement, [ZodObject]'s type check, a failed union or intersection)
    is a plain [Error]. *)
Definition is_TypeError (c : completion value) : bool :=
  match c with Throw e => instanceof_TypeError e | Return _ => false end.

(** The exceptions a union or intersection captures: those of class
    [TypeError] thrown by the children, in order. *)
Fixpoint captured (value : value) (types : list ZodType) : list exn :=
  match types with
  | [] => []
  | t :: rest =>
      match parse t value with
      | Throw e =>
          if instanceof_TypeError e then e :: captured value rest
          else captured value rest
      | Return _ => captured value rest
      end
  end.

(** The values that pass the guard
    [typeof value !== 'object' || value == null]. *)
Definition is_record (v : value) : bool :=
  negb (negb (type_tag_eqb (typeof v) TyObject) || loose_eq_null v).

(** Induction on class-based schemas that also reaches the children held
    in the lists of [ZodUnion] and [ZodObject]. *)
Section NestedInduction.
Variable P : ZodType -> Prop.
Hypothesis HOptional : forall type, P type -> P (ZodOptional type).
Hypothesis HUnion : forall types, Forall P types -> P (ZodUnion types).
Hypothesis HIntersection :
  forall a b, P a -> P b -> P (ZodIntersection a b).
Hypothesis HUnknown : P ZodUnknown.
Hypothesis HString : forall definition, P (ZodString definition).
Hypothesis HNumber : forall definition, P (ZodNumber definition).
Hypothesis HArray : forall element, P element -> P (ZodArray element).
Hypothesis HObject :
  forall fields, Forall (fun f => P f.2) fields -> P (ZodObject fields).

Fixpoint ZodType_nested_ind (t : ZodType) : P t :=
  match t with
  | ZodOptional type => HOptional type (ZodType_nested_ind type)
  | ZodUnion types =>
      HUnion types
        ((fix children (l : list ZodType) : Forall P l :=
            match l with
            | [] => @List.Forall_nil _ P
            | x :: rest =>
                @List.Forall_cons _ P x rest
                                  (ZodType_nested_ind x) (children rest)
            end) types)
  | ZodIntersection a b =>
      HIntersection a b (ZodType_nested_ind a) (ZodType_nested_ind b)
  | ZodUnknown => HUnknown
  | ZodString definition => HString definition
  | ZodNumber definition => HNumber definition
  | ZodArray element => HArray element (ZodType_nested_ind element)
  | ZodObject fields =>
      HObject fields
        ((fix children (l : list (string * ZodType))
            : Forall (fun f => P f.2) l :=
            match l with
            | [] => @List.Forall_nil _ (fun f => P f.2)
            | f :: rest =>
                @List.Forall_cons _ (fun f => P f.2) f rest
                                  (ZodType_nested_ind f.2) (children rest)
            end) fields)
  end.
End NestedInduction.

(** Schemas that are not a union, nor a union under [ZodOptional]
    wrappers: the ones whose result does not come out of
    [ZodUnion.parse]. *)
Fixpoint not_a_union (t : ZodType) : bool :=
  match t with
  | ZodOptional type => not_a_union type
  | ZodUnion _ => false
  | _ => true
  end.

(** Interface-based schemas built without [object]. *)
Fixpoint object_free (t : Schema.ZodType) : bool :=
  match t with
  | Schema.ZodObject _ => false
  | Schema.ZodArray element => object_free element
  | _ => true
  end.

(** A checker that returns [true] on the value. *)
Definition passes {T} (value : T) (c : ZodChecker T) : Prop :=
  checker c value = Return true.

(** What a refinement call [result = this.m(bound)(σ)] with appended
    checker [c] does to the store [σ]: the new instance reads the
    receiver's checkers followed by [c], from an array that did not exist
    in [σ]; every array of [σ] is still there with its contents; the
    receiver still reads the same checkers and parses every input as
    before. *)
Definition extends_without_mutation {T : Type}
    (schema_of : gmap positive (list (ZodChecker T)) -> Store.Inst -> ZodType)
    (c : ZodChecker T) (σ : gmap positive (list (ZodChecker T)))
    (this : Store.Inst)
    (result : Store.Inst * gmap positive (list (ZodChecker T))) : Prop :=
  Store.checkers_of result.2 result.1 = Store.checkers_of σ this ++ [c] /\
  Store.valid result.2 result.1 = true /\
  Store.valid σ result.1 = false /\
  (forall l old, σ !! l = Some old -> result.2 !! l = Some old) /\
  Store.valid result.2 this = true /\
  Store.checkers_of result.2 this = Store.checkers_of σ this /\
  (forall v, parse (schema_of result.2 this) v = parse (schema_of σ this) v).

(** The [definition] member of an instance, as the methods of
    [ZodString] and [ZodNumber] read it from [this]; it lets a call be
    chained on the result of another ([string().min(a).max(b)]). *)
Definition ZodString_definition (this : ZodType) : option ZodStringDefine :=
  match this with ZodString definition => definition | _ => None end.

Definition ZodNumber_definition (this : ZodType) : option ZodNumberDefine :=
  match this with ZodNumber definition => definition | _ => None end.

(** A checker that returns on the value, with either verdict. *)
Definition returns {T} (value : T) (c : ZodChecker T) : Prop :=
  exists verdict, checker c value = Return verdict.

(** Induction on interface-based schemas that also reaches the fields of
    [object]. *)
Section SchemaNestedInduction.
Variable P : Schema.ZodType -> Prop.
Hypothesis HUnknown : P Schema.ZodUnknown.
Hypothesis HString : P Schema.ZodString.
Hypothesis HNumber : P Schema.ZodNumber.
Hypothesis HArray : forall element, P element -> P (Schema.ZodArray element).
Hypothesis HObject :
  forall fields, Forall (fun f => P f.2) fields -> P (Schema.ZodObject fields).

Fixpoint Schema_nested_ind (t : Schema.ZodType) : P t :=
  match t with
  | Schema.ZodUnknown => HUnknown
  | Schema.ZodString => HString
  | Schema.ZodNumber => HNumber
  | Schema.ZodArray element => HArray element (Schema_nested_ind element)
  | Schema.ZodObject fields =>
      HObject fields
        ((fix children (l : list (string * Schema.ZodType))
            : Forall (fun f => P f.2) l :=
            match l with
            | [] => @List.Forall_nil _ (fun f => P f.2)
            | f :: rest =>
                @List.Forall_cons _ (fun f => P f.2) f rest
                                  (Schema_nested_ind f.2) (children rest)
            end) fields)
  end.
End SchemaNestedInduction.

(* ===================================================================== *)
(** * Properties                                                          *)
(* ===================================================================== *)

(** ** Basic facts about completions *)

Lemma fails_true_iff {A} (c : completion A) :
  fails c = true <-> exists e, c = Throw e.
Proof.
  destruct c as [a|e]; cbn; split; intros H; try discriminate; eauto.
  destruct H as [e H]; discriminate.
Qed.

Lemma succeeds_true_iff {A} (c : completion A) :
  succeeds c = true <-> exists a, c = Return a.
Proof.
  destruct c as [a|e]; cbn; split; intros H; try discriminate; eauto.
  destruct H as [a H]; discriminate.
Qed.

(** ** [ZodUnion.parse] *)

(** The loop returns at the first child that succeeds, whatever the
    earlier children threw. *)
Lemma ZodUnion_loop_first_success total v before t after errors r :
  Forall (fun t' => fails (parse t' v) = true) before ->
  parse t v = Return r ->
  ZodUnion_loop parse total v (before ++ t :: after) errors = Return r.
Proof.
  intros Hbefore Ht. revert errors.
  induction Hbefore as [|t' before Ht' _ IH]; intros errors; cbn.
  - now rewrite Ht.
  - apply fails_true_iff in Ht' as [e He]. rewrite He.
    destruct (instanceof_TypeError e); apply IH.
Qed.

(** When no child succeeds, only the [TypeError]s are counted against the
    number of children. *)
Lemma ZodUnion_loop_all_fail total v types errors :
  Forall (fun t => fails (parse t v) = true) types ->
  ZodUnion_loop parse total v types errors =
    if Nat.eqb (length (errors ++ captured v types)) total
    then Throw (invalid_values (errors ++ captured v types))
    else Return VUndefined.
Proof.
  intros Hall. revert errors.
  induction Hall as [|t types Ht _ IH]; intros errors; cbn.
  - now rewrite app_nil_r.
  - apply fails_true_iff in Ht as [e He]. rewrite He.
    destruct (instanceof_TypeError e); rewrite IH.
    + now rewrite <- app_assoc.
    + reflexivity.
Qed.

(** A list of children either has a first success or fails throughout. *)
Lemma first_success_or_all_fail v (types : list ZodType) :
  (exists before t after r,
      types = before ++ t :: after /\
      Forall (fun t' => fails (parse t' v) = true) before /\
      parse t v = Return r) \/
  Forall (fun t => fails (parse t v) = true) types.
Proof.
  induction types as [|t types IH].
  - right. constructor.
  - destruct (parse t v) as [r|e] eqn:Ht.
    + left. exists [], t, types, r. repeat split; auto.
    + destruct IH as [(before & t' & after & r & -> & Hb & Hr)|Hall].
      * left. exists (t :: before), t', after, r. repeat split; auto.
        constructor; auto. now rewrite Ht.
      * right. constructor; auto. now rewrite Ht.
Qed.

Lemma captured_length_le v types : length (captured v types) <= length types.
Proof.
  induction types as [|t types IH]; cbn; [lia|].
  destruct (parse t v) as [r|e]; [lia|].
  destruct (instanceof_TypeError e); cbn; lia.
Qed.

(** The captured exceptions are as many as the children exactly when every
    child threw a [TypeError]. *)
Lemma captured_length_eq v types :
  length (captured v types) = length types <->
  Forall (fun t => is_TypeError (parse t v) = true) types.
Proof.
  induction types as [|t types IH]; cbn.
  - split; auto.
  - pose proof (captured_length_le v types) as Hle.
    destruct (parse t v) as [r|e] eqn:Ht.
    + split; [lia|]. intros H. apply Forall_cons in H as [H _].
      rewrite Ht in H. discriminate.
    + destruct (instanceof_TypeError e) eqn:He; cbn.
      * split.
        -- intros H. constructor; [now rewrite Ht|]. apply IH. lia.
        -- intros H. apply Forall_cons in H as [_ H]. apply IH in H. lia.
      * split; [lia|]. intros H. apply Forall_cons in H as [H _].
        rewrite Ht in H. cbn in H. congruence.
Qed.

(** What the code guarantees in one direction: a succeeding child makes
    the union return the result of the first such child. *)
Lemma ZodUnion_first_success v before t after r :
  Forall (fun t' => fails (parse t' v) = true) before ->
  parse t v = Return r ->
  parse (ZodUnion (before ++ t :: after)) v = Return r.
Proof. intros Hb Ht. cbn. now apply ZodUnion_loop_first_success. Qed.

(** A union throws exactly when every child throws a [TypeError]; what it
    throws is an [Error] built from their messages.  Exceptions of the
    children never leave the union. *)
Lemma ZodUnion_throws_iff v types e :
  parse (ZodUnion types) v = Throw e <->
  Forall (fun t => is_TypeError (parse t v) = true) types /\
  e = invalid_values (captured v types).
Proof.
  cbn. destruct (first_success_or_all_fail v types)
    as [(before & t & after & r & -> & Hb & Hr)|Hall].
  - rewrite (ZodUnion_loop_first_success _ _ _ _ _ _ _ Hb Hr).
    split; [discriminate|]. intros [H _].
    apply Forall_app in H as [_ H]. apply Forall_cons in H as [H _].
    rewrite Hr in H. discriminate.
  - rewrite (ZodUnion_loop_all_fail _ _ _ _ Hall). cbn.
    rewrite <- captured_length_eq.
    destruct (Nat.eqb_spec (length (captured v types)) (length types)) as [Heq|Hne].
    + split.
      * intros [= <-]. auto.
      * intros [_ ->]. reflexivity.
    + split; [discriminate|]. intros [H _]. contradiction.
Qed.

(** Some child failing otherwise than by a [TypeError], and no child
    succeeding, makes the union return [undefined]. *)
Lemma ZodUnion_falls_through v types :
  Forall (fun t => fails (parse t v) = true) types ->
  Exists (fun t => is_TypeError (parse t v) = false) types ->
  parse (ZodUnion types) v = Return VUndefined.
Proof.
  intros Hall Hex. cbn. rewrite (ZodUnion_loop_all_fail _ _ _ _ Hall). cbn.
  destruct (Nat.eqb_spec (length (captured v types)) (length types)) as [Heq|Hne];
    [|reflexivity].
  apply captured_length_eq in Heq. apply Exists_exists in Hex as (t & Hin & Ht).
  rewrite Forall_forall in Heq. rewrite (Heq t Hin) in Ht. discriminate.
Qed.

(** C1 (union: acceptance iff some child accepts, first success wins,
    failure only when every child fails).  The code departs from the
    claim: in [Union([String.min(3), Number])] on ["ab"] the first child
    fails with the refinement's [Error], the second with a [TypeError];
    only the latter is counted, so the test after the loop does not throw
    and [parse] returns [undefined] although no child succeeded. *)
Theorem ZodUnion_returns_undefined_when_every_child_fails :
  let A := ZodString_min None 3 in
  let B := ZodNumber_create None in
  let v := VString "ab" in
  parse A v = Throw (mkExn Error "Must be at least 3 characters") /\
  parse B v = Throw (mkExn TypeError "Not a number") /\
  parse (ZodUnion [A; B]) v = Return VUndefined.
Proof. cbn. repeat split; reflexivity. Qed.

(** ** [ZodIntersection.parse] *)

Lemma ZodIntersection_parse_unfold a b v :
  parse (ZodIntersection a b) v =
    if Nat.eqb (length (captured v [a; b])) 2
    then Throw (invalid_values (captured v [a; b]))
    else Return v.
Proof.
  cbn. unfold ZodIntersection_try.
  destruct (parse a v) as [ra|ea]; destruct (parse b v) as [rb|eb]; cbn;
    try reflexivity;
    repeat match goal with
           | |- context [instanceof_TypeError ?e] =>
               destruct (instanceof_TypeError e); cbn
           end; reflexivity.
Qed.

(** An intersection throws exactly when both sides throw a [TypeError]. *)
Lemma ZodIntersection_throws_iff a b v e :
  parse (ZodIntersection a b) v = Throw e <->
  is_TypeError (parse a v) = true /\ is_TypeError (parse b v) = true /\
  e = invalid_values (captured v [a; b]).
Proof.
  rewrite ZodIntersection_parse_unfold.
  pose proof (captured_length_eq v [a; b]) as Hlen. cbn [length] in Hlen.
  destruct (Nat.eqb_spec (length (captured v [a; b])) 2) as [Heq|Hne].
  - apply Hlen in Heq. apply Forall_cons in Heq as [Ha Hb].
    apply Forall_cons in Hb as [Hb _]. split.
    + intros [= <-]. auto.
    + intros (_ & _ & ->). reflexivity.
  - split; [discriminate|]. intros (Ha & Hb & _). exfalso. apply Hne, Hlen.
    repeat constructor; assumption.
Qed.

(** Whenever an intersection returns, it returns its input. *)
Lemma ZodIntersection_returns_input a b v w :
  parse (ZodIntersection a b) v = Return w -> w = v.
Proof.
  rewrite ZodIntersection_parse_unfold.
  destruct (Nat.eqb _ 2); congruence.
Qed.

(** If both sides accept, so does the intersection. *)
Lemma ZodIntersection_both_succeed a b v :
  succeeds (parse a v) = true -> succeeds (parse b v) = true ->
  parse (ZodIntersection a b) v = Return v.
Proof.
  intros Ha Hb. apply succeeds_true_iff in Ha as [ra Ha].
  apply succeeds_true_iff in Hb as [rb Hb].
  rewrite ZodIntersection_parse_unfold. cbn. now rewrite Ha, Hb.
Qed.

(** C2 (intersection: acceptance iff both children accept; one failing
    side makes it fail with that side's message).  The code departs from
    the claim: it throws only when the number of captured errors is 2, so
    in [Intersection(String, Number)] on ["x"], where the right side
    fails, [parse] returns ["x"]. *)
Theorem ZodIntersection_accepts_when_one_side_fails :
  let A := ZodString_create None in
  let B := ZodNumber_create None in
  let v := VString "x" in
  parse A v = Return v /\
  parse B v = Throw (mkExn TypeError "Not a number") /\
  parse (ZodIntersection A B) v = Return v /\
  parse (and A B) v = Return v.
Proof. cbn. repeat split; reflexivity. Qed.

(** C4 (only the engine's validation failures are captured and counted by
    a union or intersection, anything else propagates).  The code departs
    from the claim on both counts: the [catch] blocks count an exception
    only if it is a [TypeError] and rethrow nothing.  A rejected
    refinement (an [Error]) is therefore not counted, and a fault raised
    by a checker disappears instead of reaching the caller. *)
Theorem combinators_drop_what_is_not_a_TypeError :
  let short := ZodString_min None 3 in
  let tiny := ZodString_max None 1 in
  let boom := mkExn (OtherError "RangeError") "boom" in
  let faulty :=
    ZodString_create
      (Some (mkStringDefine (Some [mkChecker "never" (fun _ => Throw boom)]))) in
  let v := VString "ab" in
  (parse short v = Throw (mkExn Error "Must be at least 3 characters") /\
   parse tiny v = Throw (mkExn Error "Must be at most 1 characters") /\
   parse (ZodUnion [short; tiny]) v = Return VUndefined /\
   parse (ZodIntersection short tiny) v = Return v) /\
  (parse faulty v = Throw boom /\
   parse (ZodUnion [faulty]) v = Return VUndefined /\
   parse (ZodIntersection faulty faulty) v = Return v).
Proof. cbn. repeat split; reflexivity. Qed.

(** ** [ZodObject.parse] of the class-based encoding *)

Lemma is_record_cases v :
  is_record v = true <-> (exists items, v = VArray items) \/
                         (exists props, v = VObject props) \/
                         v = VObjectPrototype.
Proof.
  destruct v; cbn; split; intros H; try discriminate; eauto;
    destruct H as [[x H]|[[x H]|H]]; discriminate.
Qed.

Lemma ZodObject_parse_unfold fields v :
  parse (ZodObject fields) v =
    if is_record v
    then match ZodObject_loop parse v fields with
         | Throw e => Throw e
         | Return _ => Return v
         end
    else Throw (mkExn Error "Not an object").
Proof.
  cbn. unfold is_record.
  destruct (negb (type_tag_eqb (typeof v) TyObject) || loose_eq_null v);
    reflexivity.
Qed.


(** The loop looks at the input only through the declared keys. *)
Lemma ZodObject_loop_ext r1 r2 fields :
  (forall k t, In (k, t) fields -> get r1 k = get r2 k) ->
  ZodObject_loop parse r1 fields = ZodObject_loop parse r2 fields.
Proof.
  induction fields as [|[k t] fields IH]; intros Hget; cbn; [reflexivity|].
  rewrite (Hget k t) by (left; reflexivity).
  destruct (parse t (get r2 k)); [|reflexivity].
  apply IH. intros k' t' Hin. apply (Hget k' t'). now right.
Qed.

(** The loop succeeds exactly when every declared field accepts what the
    input holds under its key. *)
Lemma ZodObject_loop_succeeds r fields :
  ZodObject_loop parse r fields = Return tt <->
  Forall (fun f => succeeds (parse f.2 (get r f.1)) = true) fields.
Proof.
  induction fields as [|[k t] fields IH]; cbn.
  - split; auto.
  - destruct (parse t (get r k)) as [w|e] eqn:Ht.
    + rewrite IH. split.
      * intros H. constructor; [cbn; now rewrite Ht|assumption].
      * intros H. now apply Forall_cons in H as [_ H].
    + split; [discriminate|]. intros H. apply Forall_cons in H as [H _].
      cbn in H. rewrite Ht in H. discriminate.
Qed.

(** The failure of the first rejecting field is what the object throws. *)
Lemma ZodObject_loop_first_failure r before k t after e :
  Forall (fun f => succeeds (parse f.2 (get r f.1)) = true) before ->
  parse t (get r k) = Throw e ->
  ZodObject_loop parse r (before ++ (k, t) :: after) = Throw e.
Proof.
  intros Hb Ht. induction Hb as [|[k' t'] before Hf _ IH]; cbn.
  - now rewrite Ht.
  - cbn in Hf. apply succeeds_true_iff in Hf as [w Hw]. now rewrite Hw.
Qed.

Lemma assoc_app_cons_ne {A} (k k' : string) (x : A) p1 p2 :
  k <> k' -> assoc k' (p1 ++ (k, x) :: p2) = assoc k' (p1 ++ p2).
Proof.
  intros Hne. induction p1 as [|[k1 x1] p1 IH]; cbn.
  - destruct (String.eqb_spec k k'); [contradiction|reflexivity].
  - now rewrite IH.
Qed.

(** Class-based encoding: a key of the input that the schema does not
    declare changes nothing: the same exception is thrown, or both
    records are returned as they are. *)
Lemma ZodObject_ignores_undeclared_key fields p1 p2 k x :
  (forall t, ~ In (k, t) fields) ->
  match parse (ZodObject fields) (VObject (p1 ++ p2)) with
  | Return w =>
      w = VObject (p1 ++ p2) /\
      parse (ZodObject fields) (VObject (p1 ++ (k, x) :: p2)) =
        Return (VObject (p1 ++ (k, x) :: p2))
  | Throw e =>
      parse (ZodObject fields) (VObject (p1 ++ (k, x) :: p2)) = Throw e
  end.
Proof.
  intros Hk. rewrite !ZodObject_parse_unfold.
  change (is_record (VObject (p1 ++ p2))) with true.
  change (is_record (VObject (p1 ++ (k, x) :: p2))) with true. cbv iota.
  rewrite (ZodObject_loop_ext (VObject (p1 ++ (k, x) :: p2))
                              (VObject (p1 ++ p2)) fields).
  - destruct (ZodObject_loop parse (VObject (p1 ++ p2)) fields); auto.
  - intros k' t Hin. cbn. rewrite assoc_app_cons_ne; [reflexivity|].
    intros ->. exact (Hk t Hin).
Qed.

(** Class-based encoding: an object is accepted exactly when it is a
    record and every declared field accepts the value found under its key
    ([undefined] when the key is absent). *)
Lemma ZodObject_accepts_iff fields v :
  succeeds (parse (ZodObject fields) v) = true <->
  is_record v = true /\
  Forall (fun f => succeeds (parse f.2 (get v f.1)) = true) fields.
Proof.
  rewrite ZodObject_parse_unfold. destruct (is_record v); cbn.
  - rewrite <- ZodObject_loop_succeeds.
    destruct (ZodObject_loop parse v fields) as [[]|e]; cbn; split; intros H;
      auto; try discriminate. destruct H as [_ H]; discriminate.
  - split; [discriminate|]. intros [H _]; discriminate.
Qed.


(** The examples of the specification on the class-based encoding. *)
Lemma ZodObject_examples :
  let S := ZodString_create None in
  let N := ZodNumber_create None in
  parse (ZodObject [("a", S); ("b", optional N)]) (VObject [("a", VString "x")])
    = Return (VObject [("a", VString "x")]) /\
  parse (ZodObject [("a", S); ("b", optional N)]) (VObject [("a", VNumber 1)])
    = Throw (mkExn TypeError "Not a string") /\
  parse (ZodObject [("a", S)]) (VObject [])
    = Throw (mkExn TypeError "Not a string") /\
  parse (ZodObject [("a", S)])
        (VObject [("a", VString "x"); ("extra", VNumber 1)])
    = Return (VObject [("a", VString "x"); ("extra", VNumber 1)]).
Proof. cbn. repeat split; reflexivity. Qed.

(** ** [object] of [src/schema.ts] *)

(** C3 (extra keys of the input are ignored by every object schema).
    The interface-based [object] departs from the claim, which the
    class-based [ZodObject.parse] satisfies: it walks the entries of the
    input and calls [fields[key].parse], so on
    [object({a: string()})] and [{a: "x", extra: 1}] the undeclared key
    makes the member access on [undefined] throw. *)
Theorem Schema_object_throws_on_extra_key :
  let schema := Schema.ZodObject [("a", Schema.ZodString)] in
  Schema.parse schema (VObject [("a", VString "x")])
    = Return (VObject [("a", VString "x")]) /\
  Schema.parse schema (VObject [("a", VString "x"); ("extra", VNumber 1)])
    = Throw (mkExn TypeError
               "Cannot read properties of undefined (reading 'parse')") /\
  parse (to_class schema) (VObject [("a", VString "x"); ("extra", VNumber 1)])
    = Return (VObject [("a", VString "x"); ("extra", VNumber 1)]).
Proof. cbn. repeat split; reflexivity. Qed.

(** C5 (every declared field is validated, an absent key standing for
    the absence sentinel, so that a missing required field fails).  The
    interface-based [object] departs from the claim, which the
    class-based [ZodObject.parse] satisfies: only the keys present in the
    input are validated, so [object({a: string()})] accepts [{}] although
    [string()] rejects [undefined]. *)
Theorem Schema_object_skips_absent_field :
  let schema := Schema.ZodObject [("a", Schema.ZodString)] in
  Schema.parse Schema.ZodString VUndefined
    = Throw (mkExn ZodTypeError "Invalid string") /\
  Schema.parse schema (VObject []) = Return (VObject []) /\
  Schema.parse schema (VObject [("a", VNumber 1)])
    = Throw (mkExn ZodTypeError "Invalid string") /\
  parse (to_class schema) (VObject [])
    = Throw (mkExn TypeError "Not a string").
Proof. cbn. repeat split; reflexivity. Qed.

(** ** What [parse] returns *)

(** In the class-based encoding a successful [parse] hands back its input,
    or [undefined]. *)
Lemma parse_returns_input_or_undefined t :
  forall v w, parse t v = Return w -> w = v \/ w = VUndefined.
Proof.
  induction t as [type IH|types IH|a b _ _| |d|d|element _|fields _]
    using ZodType_nested_ind; intros v w H.
  - cbn in H. destruct (strict_eq_undefined v); [|eauto].
    injection H as <-. now right.
  - cbn in H.
    destruct (first_success_or_all_fail v types)
      as [(before & t & after & r & -> & Hb & Hr)|Hall].
    + rewrite (ZodUnion_loop_first_success _ _ _ _ _ _ _ Hb Hr) in H.
      injection H as <-. apply Forall_app in IH as [_ IH].
      apply Forall_cons in IH as [IH _]. eauto.
    + rewrite (ZodUnion_loop_all_fail _ _ _ _ Hall) in H.
      destruct (Nat.eqb _ _); [discriminate|]. injection H as <-. now right.
  - left. eapply ZodIntersection_returns_input; eauto.
  - cbn in H. injection H as <-. now left.
  - cbn in H. destruct v; try discriminate.
    destruct (run_checkers _ _); [|discriminate]. injection H as <-. now left.
  - cbn in H. destruct v; try discriminate.
    destruct (run_checkers _ _); [|discriminate]. injection H as <-. now left.
  - cbn in H. destruct v; try discriminate.
    destruct (for_of _ _); [|discriminate]. injection H as <-. now left.
  - rewrite ZodObject_parse_unfold in H. destruct (is_record v); [|discriminate].
    destruct (ZodObject_loop _ _ _); [|discriminate]. injection H as <-. now left.
Qed.

(** Outside of a union, a successful [parse] returns its input, hence is
    idempotent. *)
Lemma parse_returns_input t :
  not_a_union t = true -> forall v w, parse t v = Return w -> w = v.
Proof.
  induction t as [type IH|types _|a b _ _| |d|d|element _|fields _]
    using ZodType_nested_ind; intros Hnu v w H; try discriminate.
  - cbn in H. destruct v; cbn in H;
      try (injection H as <-; reflexivity); eapply IH; eauto.
  - eapply ZodIntersection_returns_input; eauto.
  - cbn in H. congruence.
  - cbn in H. destruct v; try discriminate.
    destruct (run_checkers _ _); congruence.
  - cbn in H. destruct v; try discriminate.
    destruct (run_checkers _ _); congruence.
  - cbn in H. destruct v; try discriminate.
    destruct (for_of _ _); congruence.
  - rewrite ZodObject_parse_unfold in H. destruct (is_record v); [|discriminate].
    destruct (ZodObject_loop _ _ _); congruence.
Qed.

Lemma parse_idempotent_outside_union t v w :
  not_a_union t = true -> parse t v = Return w -> parse t w = Return w.
Proof.
  intros Hnu H. pose proof (parse_returns_input t Hnu v w H) as ->. exact H.
Qed.

(** In the interface-based encoding a successful [parse] returns a value
    equal to its input ([array] rebuilds the array from the parsed
    elements), hence is idempotent. *)
Lemma map_items_returns_input (f : value -> completion value) items :
  (forall v w, f v = Return w -> w = v) ->
  forall parsed, map_items f items = Return parsed -> parsed = items.
Proof.
  intros Hf. induction items as [|v items IH]; cbn; intros parsed H.
  - congruence.
  - destruct (f v) as [w|e] eqn:Hv; [|discriminate].
    destruct (map_items f items) as [ws|e]; [|discriminate].
    injection H as <-. rewrite (Hf _ _ Hv), (IH ws); reflexivity.
Qed.

Lemma Schema_parse_returns_input t :
  forall v w, Schema.parse t v = Return w -> w = v.
Proof.
  induction t as [| | |element IH|fields]; intros v w H; cbn in H.
  - congruence.
  - destruct v; congruence.
  - destruct v; congruence.
  - destruct v; try discriminate.
    destruct (map_items _ _) as [parsed|e] eqn:Hm; [|discriminate].
    injection H as <-. f_equal. eapply map_items_returns_input; eauto.
  - destruct (negb _ || _); [discriminate|].
    destruct (for_of _ _); congruence.
Qed.

Lemma Schema_parse_idempotent t v w :
  Schema.parse t v = Return w -> Schema.parse t w = Return w.
Proof.
  intros H. pose proof (Schema_parse_returns_input t v w H) as ->. exact H.
Qed.

(** C9 (idempotence: a validated output is accepted again and returned
    unchanged).  The class-based [ZodUnion.parse] departs from the claim:
    when every child fails and one of them not by a [TypeError] it
    returns [undefined], which the same union then rejects.  Here both
    refinements reject ["ab"], and both type checks reject
    [undefined]. *)
Theorem ZodUnion_output_is_rejected_on_reparse :
  let S := or (ZodString_min None 3) (ZodString_max None 1) in
  parse S (VString "ab") = Return VUndefined /\
  parse S VUndefined =
    Throw (invalid_values [mkExn TypeError "Not a string";
                           mkExn TypeError "Not a string"]).
Proof. cbn. split; reflexivity. Qed.

(** ** The two encodings side by side *)

Lemma map_items_for_of_succeeds {A B C}
    (f : A -> completion B) (g : A -> completion C) items :
  (forall v, succeeds (f v) = succeeds (g v)) ->
  succeeds (map_items f items) = succeeds (for_of g items).
Proof.
  intros Hfg. induction items as [|v items IH]; cbn; [reflexivity|].
  specialize (Hfg v). destruct (f v), (g v); cbn in Hfg; try discriminate;
    [|reflexivity].
  rewrite <- IH. now destruct (map_items f items).
Qed.

(** Away from object schemas the two encodings accept the same inputs
    (arrays being dense). *)
Lemma encodings_agree_without_objects t :
  object_free t = true ->
  forall v, succeeds (Schema.parse t v) = succeeds (parse (to_class t) v).
Proof.
  induction t as [| | |element IH|fields]; intros Hof v; cbn in *.
  - reflexivity.
  - now destruct v.
  - now destruct v.
  - destruct v; try reflexivity.
    pose proof (map_items_for_of_succeeds
                  (Schema.parse element) (parse (to_class element)) items
                  (IH Hof)) as Hs.
    destruct (map_items _ _), (for_of _ _); cbn in *; congruence.
  - discriminate.
Qed.

(** C6 (the two encodings agree on acceptance for every schema that both
    can express).  The code departs from the claim at object schemas:
    [object] of [src/schema.ts] validates the keys of the input, the
    class-based [ZodObject.parse] the declared fields.  With
    [{a: string}] the first accepts [{}] and rejects
    [{a: "x", extra: 1}], the second does the opposite. *)
Theorem encodings_disagree_on_objects :
  let schema := Schema.ZodObject [("a", Schema.ZodString)] in
  let empty := VObject [] in
  let extra := VObject [("a", VString "x"); ("extra", VNumber 1)] in
  (succeeds (Schema.parse schema empty) = true /\
   succeeds (parse (to_class schema) empty) = false) /\
  (succeeds (Schema.parse schema extra) = false /\
   succeeds (parse (to_class schema) extra) = true).
Proof. cbn. repeat split; reflexivity. Qed.

(** ** The refinement layer *)

Lemma run_checkers_all_pass {T} (checkers : list (ZodChecker T)) value :
  Forall (passes value) checkers -> run_checkers checkers value = Return tt.
Proof.
  induction 1 as [|c rest Hc _ IH]; cbn; [reflexivity|].
  unfold passes in Hc. now rewrite Hc.
Qed.

(** The checkers run from the front: the first one that returns [false]
    decides, whatever comes after it (even a checker that would throw). *)
Lemma run_checkers_first_false {T} (before after : list (ZodChecker T)) c value :
  Forall (passes value) before ->
  checker c value = Return false ->
  run_checkers (before ++ c :: after) value = Throw (mkExn Error (message c)).
Proof.
  induction 1 as [|c' rest Hc' _ IH]; intros Hc; cbn.
  - now rewrite Hc.
  - unfold passes in Hc'. rewrite Hc'. now apply IH.
Qed.

(** Appending a checker does not change what the earlier ones decide. *)
Lemma run_checkers_snoc {T} (checkers : list (ZodChecker T)) c value :
  run_checkers (checkers ++ [c]) value =
    match run_checkers checkers value with
    | Throw e => Throw e
    | Return _ => run_checkers [c] value
    end.
Proof.
  induction checkers as [|c' rest IH]; cbn; [reflexivity|].
  destruct (checker c' value) as [[|]|e]; auto.
Qed.

Lemma ZodString_parse_string this s :
  parse (ZodString this) (VString s) =
    match run_checkers (checkers_of_string this) s with
    | Throw e => Throw e
    | Return _ => Return (VString s)
    end.
Proof. reflexivity. Qed.

Lemma ZodNumber_parse_number this z :
  parse (ZodNumber this) (VNumber z) =
    match run_checkers (checkers_of_number this) z with
    | Throw e => Throw e
    | Return _ => Return (VNumber z)
    end.
Proof. reflexivity. Qed.

(** The type check comes before any refinement. *)
Lemma ZodString_parse_not_string this v :
  typeof v <> TyString ->
  parse (ZodString this) v = Throw (mkExn TypeError "Not a string").
Proof. destruct v; cbn; intros H; try reflexivity. contradiction. Qed.

Lemma ZodNumber_parse_not_number this v :
  typeof v <> TyNumber ->
  parse (ZodNumber this) v = Throw (mkExn TypeError "Not a number").
Proof. destruct v; cbn; intros H; try reflexivity. contradiction. Qed.

(** Comparisons of integers are the usual ones; nothing compares with
    [NaN]. *)
Lemma num_leb_Int a b : num_leb (Int a) (Int b) = Z.leb a b.
Proof.
  unfold Int. cbn [num_leb]. unfold dec_leb. cbn [Z.min Z.compare Z.sub Z.opp Z.add].
  change (10 ^ 0)%Z with 1%Z. now rewrite !Z.mul_1_r.
Qed.

Lemma num_geb_Int a b : num_geb (Int a) (Int b) = Z.leb b a.
Proof. apply num_leb_Int. Qed.

Lemma num_leb_NaN_r x : num_leb x NaN = false.
Proof. now destruct x as [|[]|]. Qed.

Lemma num_leb_NaN_l x : num_leb NaN x = false.
Proof. reflexivity. Qed.

(** [min] appends its checker, so the receiver's checkers run first and
    the test of [min] only when they have all passed. *)
Lemma ZodString_min_parse this min s :
  parse (ZodString_min this min) (VString s) =
    match parse (ZodString_create this) (VString s) with
    | Throw e => Throw e
    | Return _ =>
        if num_geb (Int (Z.of_nat (String.length s))) min
        then Return (VString s)
        else Throw (mkExn Error
                      ("Must be at least " ++ Number_toString min
                                           ++ " characters"))
    end.
Proof.
  unfold ZodString_min, ZodString_create. rewrite !ZodString_parse_string.
  cbn [checkers_of_string string_checkers default from_option id].
  rewrite run_checkers_snoc.
  destruct (run_checkers (checkers_of_string this) s); [|reflexivity].
  cbn [run_checkers checker message string_min_checker].
  now destruct (num_geb _ min).
Qed.

Lemma ZodNumber_min_parse this min z :
  parse (ZodNumber_min this min) (VNumber z) =
    match parse (ZodNumber_create this) (VNumber z) with
    | Throw e => Throw e
    | Return _ =>
        if num_geb z min then Return (VNumber z)
        else Throw (mkExn Error ("Must be at least " ++ Number_toString min))
    end.
Proof.
  unfold ZodNumber_min, ZodNumber_create. rewrite !ZodNumber_parse_number.
  cbn [checkers_of_number number_checkers default from_option id].
  rewrite run_checkers_snoc.
  destruct (run_checkers (checkers_of_number this) z); [|reflexivity].
  cbn [run_checkers checker message number_min_checker].
  now destruct (num_geb z min).
Qed.

(** C7 as stated fails on the code: [String.min(n).parse(s)] fails with
    a refinement's [Error] although [length(s) < n] is false, both when
    an earlier refinement of the chain rejects the string
    ([string().max(1).min(0)] on ["ab"]) and when the bound is [NaN]
    ([string().min(NaN)] on ["ab"]). *)
Lemma min_fails_without_the_length_being_below_the_bound :
  parse (ZodString_min (ZodString_definition (ZodString_max None 1)) 0)
        (VString "ab")
    = Throw (mkExn Error "Must be at most 1 characters") /\
  ~ (Z.of_nat (String.length "ab") < 0)%Z /\
  parse (ZodString_min None NaN) (VString "ab")
    = Throw (mkExn Error "Must be at least NaN characters") /\
  num_ltb (Int (Z.of_nat (String.length "ab"))) NaN = false.
Proof. repeat split. cbn. lia. Qed.

(** C7, amended (refinements run in append order after the type check;
    the first predicate returning false aborts with an [Error] carrying
    its message and later predicates are not run; [min(n)] appends its
    predicate to the receiver's).

    For every string [s], number [z] and bound [n]: an input of another
    type is rejected with a [TypeError] before any checker is looked at;
    in a list of checkers the first one that returns false decides, with
    an [Error] carrying its message, whatever follows (even a checker
    that would throw), and when all return true the input is returned;
    [min(n)] builds a schema whose checkers are the receiver's followed
    by its own, so that it throws what the receiver throws on [s] and
    otherwise fails, with the message of [min], exactly when the test
    [s.length >= n] (for numbers [z >= n]) is false: for an integer [n],
    when the length is below [n]; for [n = NaN], always. *)
Theorem refinements_run_in_append_order
    (this : option ZodStringDefine) (s : string)
    (nthis : option ZodNumberDefine) (z : number) (n : number) :
  let len := Int (Z.of_nat (String.length s)) in
  let S cs := ZodString_create (Some (mkStringDefine (Some cs))) in
  let N cs := ZodNumber_create (Some (mkNumberDefine (Some cs))) in
  let too_short :=
    mkExn Error ("Must be at least " ++ Number_toString n ++ " characters") in
  let too_small := mkExn Error ("Must be at least " ++ Number_toString n) in
  (forall cs v, typeof v <> TyString ->
     parse (S cs) v = Throw (mkExn TypeError "Not a string")) /\
  (forall cs v, typeof v <> TyNumber ->
     parse (N cs) v = Throw (mkExn TypeError "Not a number")) /\
  (forall before c after,
     Forall (passes s) before -> checker c s = Return false ->
     parse (S (before ++ c :: after)) (VString s)
       = Throw (mkExn Error (message c))) /\
  (forall before c after,
     Forall (passes z) before -> checker c z = Return false ->
     parse (N (before ++ c :: after)) (VNumber z)
       = Throw (mkExn Error (message c))) /\
  (forall cs, Forall (passes s) cs ->
     parse (S cs) (VString s) = Return (VString s)) /\
  (forall cs, Forall (passes z) cs ->
     parse (N cs) (VNumber z) = Return (VNumber z)) /\
  checkers_of_string (ZodString_definition (ZodString_min this n))
    = checkers_of_string this ++ [string_min_checker n] /\
  checkers_of_number (ZodNumber_definition (ZodNumber_min nthis n))
    = checkers_of_number nthis ++ [number_min_checker n] /\
  parse (ZodString_min this n) (VString s)
    = match parse (ZodString_create this) (VString s) with
      | Throw e => Throw e
      | Return _ => if num_geb len n then Return (VString s)
                    else Throw too_short
      end /\
  parse (ZodNumber_min nthis n) (VNumber z)
    = match parse (ZodNumber_create nthis) (VNumber z) with
      | Throw e => Throw e
      | Return _ => if num_geb z n then Return (VNumber z)
                    else Throw too_small
      end /\
  (forall k : Z,
     num_geb len (Int k) = false <-> (Z.of_nat (String.length s) < k)%Z) /\
  (forall k j : Z, num_geb (Int j) (Int k) = false <-> (j < k)%Z) /\
  num_geb len NaN = false /\
  num_geb z NaN = false /\
  num_geb NaN n = false.
Proof.
  intros len S N too_short too_small.
  split; [intros cs v Hv; now apply ZodString_parse_not_string|].
  split; [intros cs v Hv; now apply ZodNumber_parse_not_number|].
  split.
  { intros before c after Hb Hc. unfold S, ZodString_create.
    rewrite ZodString_parse_string.
    cbn [checkers_of_string string_checkers default from_option id].
    now rewrite (run_checkers_first_false _ _ _ _ Hb Hc). }
  split.
  { intros before c after Hb Hc. unfold N, ZodNumber_create.
    rewrite ZodNumber_parse_number.
    cbn [checkers_of_number number_checkers default from_option id].
    now rewrite (run_checkers_first_false _ _ _ _ Hb Hc). }
  split.
  { intros cs Hall. unfold S, ZodString_create. rewrite ZodString_parse_string.
    cbn [checkers_of_string string_checkers default from_option id].
    now rewrite (run_checkers_all_pass _ _ Hall). }
  split.
  { intros cs Hall. unfold N, ZodNumber_create. rewrite ZodNumber_parse_number.
    cbn [checkers_of_number number_checkers default from_option id].
    now rewrite (run_checkers_all_pass _ _ Hall). }
  split; [reflexivity|]. split; [reflexivity|].
  split; [apply ZodString_min_parse|]. split; [apply ZodNumber_min_parse|].
  split.
  { intros k. unfold len. rewrite num_geb_Int. apply Z.leb_gt. }
  split.
  { intros k j. rewrite num_geb_Int. apply Z.leb_gt. }
  split; [reflexivity|]. split; [reflexivity|]. apply num_leb_NaN_r.
Qed.

(** The statement above at the chain [string().max(1).min(0)] and the
    string ["ab"], which the receiver rejects; at the list
    [max(5), min(3)] followed by a throwing checker; and at [number()]
    with the bound [NaN]. *)
Lemma refinements_run_in_append_order_witness :
  let faulty :=
    mkChecker "never" (fun _ : string =>
                         Throw (mkExn (OtherError "RangeError") "boom")) in
  parse (ZodString_min (ZodString_definition (ZodString_max None 1)) 0)
        (VString "ab")
    = Throw (mkExn Error "Must be at most 1 characters") /\
  parse (ZodString_create
           (Some (mkStringDefine
                    (Some [string_max_checker 5; string_min_checker 3; faulty]))))
        (VString "ab")
    = Throw (mkExn Error "Must be at least 3 characters") /\
  parse (ZodString_create
           (Some (mkStringDefine
                    (Some [string_max_checker 5; string_min_checker 3; faulty]))))
        (VNumber 7)
    = Throw (mkExn TypeError "Not a string") /\
  parse (ZodNumber_min None NaN) (VNumber 4)
    = Throw (mkExn Error "Must be at least NaN").
Proof.
  intros faulty.
  destruct (refinements_run_in_append_order
              (ZodString_definition (ZodString_max None 1)) "ab"
              None 4 0)
    as (Hty & _ & Hfirst & _ & _ & _ & _ & _ & Hmin & _).
  destruct (refinements_run_in_append_order None "ab" None 4 NaN)
    as (_ & _ & _ & _ & _ & _ & _ & _ & _ & Hnan & _).
  split; [rewrite Hmin; reflexivity|].
  split.
  { apply (Hfirst [string_max_checker 5] (string_min_checker 3) [faulty]).
    - repeat constructor.
    - reflexivity. }
  split; [apply Hty; discriminate|].
  rewrite Hnan. reflexivity.
Defined.

(** ** Refinement calls and the store *)

Section StoreFacts.
Context {T : Type}.
Implicit Types (σ : gmap positive (list (ZodChecker T))) (this other : Store.Inst).

Lemma alloc_fresh σ arr : σ !! (Store.alloc σ arr).1 = None.
Proof. cbn. apply not_elem_of_dom, is_fresh. Qed.

(** Allocation writes no array that exists already. *)
Lemma alloc_preserves σ arr l old :
  σ !! l = Some old -> (Store.alloc σ arr).2 !! l = Some old.
Proof.
  intros Hl. cbn. rewrite lookup_insert_ne; [assumption|].
  intros Heq. pose proof (alloc_fresh σ arr) as Hfresh. cbn in Hfresh.
  rewrite Heq in Hfresh. congruence.
Qed.

Lemma refine_unfold (c : ZodChecker T) this σ :
  Store.refine c this σ =
    (Store.mkInst (Some (Store.mkDefine
                           (Some (Store.alloc σ (Store.checkers_of σ this ++ [c])).1))),
     (Store.alloc σ (Store.checkers_of σ this ++ [c])).2).
Proof. reflexivity. Qed.

(** The new instance holds the receiver's checkers followed by the new
    one. *)
Lemma refine_appends (c : ZodChecker T) this σ :
  Store.checkers_of (Store.refine c this σ).2 (Store.refine c this σ).1
    = Store.checkers_of σ this ++ [c].
Proof.
  rewrite refine_unfold. cbn. now rewrite lookup_insert_eq.
Qed.

Lemma refine_new_valid (c : ZodChecker T) this σ :
  Store.valid (Store.refine c this σ).2 (Store.refine c this σ).1 = true.
Proof.
  rewrite refine_unfold. cbn. rewrite lookup_insert_eq.
  apply bool_decide_eq_true. eauto.
Qed.

(** The array of the new instance did not exist before the call. *)
Lemma refine_new_fresh (c : ZodChecker T) this σ :
  Store.valid σ (Store.refine c this σ).1 = false.
Proof.
  rewrite refine_unfold. unfold Store.valid. cbn [fst Store.definition Store.checkers].
  rewrite alloc_fresh. apply bool_decide_eq_false. intros [x Hx]. discriminate.
Qed.

(** No array of the store is written by a refinement call. *)
Lemma refine_preserves (c : ZodChecker T) this σ l old :
  σ !! l = Some old -> (Store.refine c this σ).2 !! l = Some old.
Proof. rewrite refine_unfold. apply alloc_preserves. Qed.

(** An instance whose reference is live before the call reads the same
    checkers after it. *)
Lemma refine_keeps_instance (c : ZodChecker T) this σ other :
  Store.valid σ other = true ->
  Store.valid (Store.refine c this σ).2 other = true /\
  Store.checkers_of (Store.refine c this σ).2 other = Store.checkers_of σ other.
Proof.
  unfold Store.valid, Store.checkers_of.
  destruct (Store.definition other) as [[[l|]]|]; auto.
  cbn [Store.checkers].
  intros Hv. apply bool_decide_eq_true in Hv as [old Hold].
  rewrite (refine_preserves c this σ l old Hold), Hold.
  split; [|reflexivity]. apply bool_decide_eq_true. eauto.
Qed.

Lemma run_calls_keeps_instance
    (calls : list (ZodChecker T * Store.Inst)) σ other :
  Store.valid σ other = true ->
  Store.valid (Store.run_calls calls σ) other = true /\
  Store.checkers_of (Store.run_calls calls σ) other = Store.checkers_of σ other.
Proof.
  revert σ. induction calls as [|[c this] calls IH]; intros σ Hv.
  - auto.
  - change (Store.run_calls ((c, this) :: calls) σ)
      with (Store.run_calls calls (Store.refine c this σ).2).
    destruct (refine_keeps_instance c this σ other Hv) as [Hv' Hc'].
    destruct (IH _ Hv') as [Hv'' Hc'']. split; [exact Hv''|].
    now rewrite Hc''.
Qed.
End StoreFacts.

(** The store-level methods build the schema that the methods of the
    class-based encoding build from the receiver's schema. *)
Lemma Store_ZodString_min_schema this min σ :
  Store.string_schema (Store.ZodString_min this min σ).2
                      (Store.ZodString_min this min σ).1
    = ZodString_min (Some (mkStringDefine (Some (Store.checkers_of σ this)))) min.
Proof.
  unfold Store.string_schema, Store.ZodString_min.
  now rewrite refine_appends.
Qed.

Lemma Store_ZodString_max_schema this max σ :
  Store.string_schema (Store.ZodString_max this max σ).2
                      (Store.ZodString_max this max σ).1
    = ZodString_max (Some (mkStringDefine (Some (Store.checkers_of σ this)))) max.
Proof.
  unfold Store.string_schema, Store.ZodString_max.
  now rewrite refine_appends.
Qed.

Lemma Store_ZodNumber_min_schema this min σ :
  Store.number_schema (Store.ZodNumber_min this min σ).2
                      (Store.ZodNumber_min this min σ).1
    = ZodNumber_min (Some (mkNumberDefine (Some (Store.checkers_of σ this)))) min.
Proof.
  unfold Store.number_schema, Store.ZodNumber_min.
  now rewrite refine_appends.
Qed.

Lemma Store_ZodNumber_max_schema this max σ :
  Store.number_schema (Store.ZodNumber_max this max σ).2
                      (Store.ZodNumber_max this max σ).1
    = ZodNumber_max (Some (mkNumberDefine (Some (Store.checkers_of σ this)))) max.
Proof.
  unfold Store.number_schema, Store.ZodNumber_max.
  now rewrite refine_appends.
Qed.

Lemma refine_extends_without_mutation {T : Type}
    (schema_of : gmap positive (list (ZodChecker T)) -> Store.Inst -> ZodType)
    (c : ZodChecker T) σ this :
  (forall σ1 σ2 i, Store.checkers_of σ1 i = Store.checkers_of σ2 i ->
                   schema_of σ1 i = schema_of σ2 i) ->
  Store.valid σ this = true ->
  extends_without_mutation schema_of c σ this (Store.refine c this σ).
Proof.
  intros Hschema Hv. unfold extends_without_mutation.
  destruct (refine_keeps_instance c this σ this Hv) as [Hv' Hc'].
  split; [apply refine_appends|]. split; [apply refine_new_valid|].
  split; [apply refine_new_fresh|].
  split; [intros l old; apply refine_preserves|]. split; [exact Hv'|].
  split; [exact Hc'|]. intros v. now rewrite (Hschema _ _ _ Hc').
Qed.

Lemma string_schema_ext σ1 σ2 i :
  Store.checkers_of σ1 i = Store.checkers_of σ2 i ->
  Store.string_schema σ1 i = Store.string_schema σ2 i.
Proof. unfold Store.string_schema. now intros ->. Qed.

Lemma number_schema_ext σ1 σ2 i :
  Store.checkers_of σ1 i = Store.checkers_of σ2 i ->
  Store.number_schema σ1 i = Store.number_schema σ2 i.
Proof. unfold Store.number_schema. now intros ->. Qed.

(** C8 (a refinement call returns a new schema whose checker list is the
    receiver's with one predicate appended, and never mutates the
    receiver; a schema never changes its accepted-value set).

    For a [ZodString] instance [this] and a [ZodNumber] instance [nthis]
    whose checker arrays live in the stores [σ] and [τ]: each of
    [ZodString.min], [ZodString.max], [ZodNumber.min], [ZodNumber.max]
    returns an instance that reads the receiver's checkers followed by
    the new one, writes no existing array, and leaves the receiver with
    the same checkers and the same [parse] results; and the receiver
    parses every input the same after any sequence of refinement calls on
    any receivers. *)
Theorem refinement_never_mutates_receiver
    (σ : gmap positive (list (ZodChecker string)))
    (τ : gmap positive (list (ZodChecker number)))
    (this nthis : Store.Inst) (bound : number)
    (calls : list (ZodChecker string * Store.Inst))
    (ncalls : list (ZodChecker number * Store.Inst)) :
  Store.valid σ this = true ->
  Store.valid τ nthis = true ->
  extends_without_mutation Store.string_schema (string_min_checker bound)
    σ this (Store.ZodString_min this bound σ) /\
  extends_without_mutation Store.string_schema (string_max_checker bound)
    σ this (Store.ZodString_max this bound σ) /\
  extends_without_mutation Store.number_schema (number_min_checker bound)
    τ nthis (Store.ZodNumber_min nthis bound τ) /\
  extends_without_mutation Store.number_schema (number_max_checker bound)
    τ nthis (Store.ZodNumber_max nthis bound τ) /\
  (forall v, parse (Store.string_schema (Store.run_calls calls σ) this) v
             = parse (Store.string_schema σ this) v) /\
  (forall v, parse (Store.number_schema (Store.run_calls ncalls τ) nthis) v
             = parse (Store.number_schema τ nthis) v).
Proof.
  intros Hs Hn.
  split; [apply refine_extends_without_mutation;
          [exact string_schema_ext|exact Hs]|].
  split; [apply refine_extends_without_mutation;
          [exact string_schema_ext|exact Hs]|].
  split; [apply refine_extends_without_mutation;
          [exact number_schema_ext|exact Hn]|].
  split; [apply refine_extends_without_mutation;
          [exact number_schema_ext|exact Hn]|].
  split; intros v.
  - destruct (run_calls_keeps_instance calls σ this Hs) as [_ Hc].
    now rewrite (string_schema_ext _ _ _ Hc).
  - destruct (run_calls_keeps_instance ncalls τ nthis Hn) as [_ Hc].
    now rewrite (number_schema_ext _ _ _ Hc).
Qed.

(** The statement above at [base = String.min(2)], stored at location 1,
    refined with bound 3: ["ab"] is accepted by [base] before and after
    the call, and rejected by the refined schema. *)
Lemma refinement_never_mutates_receiver_witness :
  let σ : gmap positive (list (ZodChecker string)) :=
    {[ 1%positive := [string_min_checker 2] ]} in
  let base := Store.mkInst (Some (Store.mkDefine (Some 1%positive))) in
  let result := Store.ZodString_min base 3 σ in
  Store.valid σ base = true /\
  Store.checkers_of result.2 result.1
    = [string_min_checker 2; string_min_checker 3] /\
  Store.checkers_of result.2 base = [string_min_checker 2] /\
  parse (Store.string_schema result.2 base) (VString "ab")
    = Return (VString "ab") /\
  parse (Store.string_schema result.2 result.1) (VString "ab")
    = Throw (mkExn Error "Must be at least 3 characters").
Proof.
  intros σ base result.
  assert (Hv : Store.valid σ base = true) by reflexivity.
  assert (Hn : Store.valid (∅ : gmap positive (list (ZodChecker number)))
                           (Store.mkInst None) = true) by reflexivity.
  destruct (refinement_never_mutates_receiver
              σ ∅ base (Store.mkInst None) 3 [] [] Hv Hn)
    as ((Happ & _ & _ & _ & _ & Hsame & Hparse) & _).
  fold result in Happ, Hsame, Hparse.
  split; [exact Hv|]. split; [exact Happ|]. split; [exact Hsame|].
  split; [rewrite Hparse; reflexivity|].
  unfold Store.string_schema. rewrite Happ. reflexivity.
Defined.

(** ** The absence sentinel *)

(** C10 (class-based encoding: the absence sentinel is exactly
    [undefined]; [null] is a present value).  [Optional(S)] returns
    [undefined] on [undefined] for every child [S], whatever [S] itself
    would do with it; every other input, [null] included, is handed to
    [S]; and [ZodObject.parse] rejects [null] as not an object (as does
    [object] of [src/schema.ts]). *)
Theorem absence_sentinel_is_undefined
    (S : ZodType) (fields : list (string * ZodType))
    (sfields : list (string * Schema.ZodType)) (v : value) :
  v <> VUndefined ->
  parse (ZodOptional S) VUndefined = Return VUndefined /\
  parse (optional S) VUndefined = Return VUndefined /\
  parse (ZodOptional S) VNull = parse S VNull /\
  parse (ZodOptional S) v = parse S v /\
  parse (ZodObject fields) VNull = Throw (mkExn Error "Not an object") /\
  Schema.parse (Schema.ZodObject sfields) VNull
    = Throw (mkExn ZodTypeError "Invalid object").
Proof.
  intros Hv. repeat split.
  destruct v; try reflexivity. contradiction.
Qed.

(** The statement above at [Optional(String)] and the input [null]:
    [undefined] is accepted although [String] rejects it, [null] is
    rejected by [String]. *)
Lemma absence_sentinel_is_undefined_witness :
  let S := ZodString_create None in
  VNull <> VUndefined /\
  parse S VUndefined = Throw (mkExn TypeError "Not a string") /\
  parse (ZodOptional S) VUndefined = Return VUndefined /\
  parse (ZodOptional S) VNull = Throw (mkExn TypeError "Not a string") /\
  parse (ZodObject [("a", optional S)]) VNull
    = Throw (mkExn Error "Not an object").
Proof.
  intros S.
  assert (Hne : VNull <> VUndefined) by discriminate.
  destruct (absence_sentinel_is_undefined S [("a", optional S)] [] VNull Hne)
    as (Hundef & _ & _ & Hnull & Hobj & _).
  split; [exact Hne|]. split; [reflexivity|]. split; [exact Hundef|].
  split; [rewrite Hnull; reflexivity|exact Hobj].
Defined.

(* ===================================================================== *)
(** * Further properties of the code                                      *)
(* ===================================================================== *)

(** ** Unions and intersections *)

Lemma instanceof_TypeError_iff e :
  instanceof_TypeError e = true <-> cls e = TypeError.
Proof.
  unfold instanceof_TypeError. destruct (cls e); split; congruence.
Qed.

Lemma is_TypeError_iff (c : completion value) :
  is_TypeError c = true <-> exists e, c = Throw e /\ cls e = TypeError.
Proof.
  destruct c as [w|e]; cbn.
  - split; [discriminate|]. intros (e & H & _). discriminate.
  - rewrite instanceof_TypeError_iff. split.
    + eauto.
    + intros (e' & [= <-] & H). exact H.
Qed.

(** When every child throws a [TypeError], the captured exceptions are
    the thrown ones, child by child. *)
Lemma captured_all_TypeError v types errors :
  Forall2 (fun t e => parse t v = Throw e /\ cls e = TypeError) types errors ->
  captured v types = errors.
Proof.
  induction 1 as [|t e types errors [Ht He] _ IH]; cbn; [reflexivity|].
  rewrite Ht. apply instanceof_TypeError_iff in He. rewrite He.
  now rewrite IH.
Qed.

Lemma all_TypeError_captured v types :
  Forall (fun t => is_TypeError (parse t v) = true) types ->
  Forall2 (fun t e => parse t v = Throw e /\ cls e = TypeError)
          types (captured v types).
Proof.
  induction 1 as [|t types Ht _ IH]; cbn; [constructor|].
  apply is_TypeError_iff in Ht as (e & Ht & He). rewrite Ht.
  pose proof He as He'. apply instanceof_TypeError_iff in He'. rewrite He'.
  constructor; auto.
Qed.

(** What a union or an intersection throws is never a [TypeError]. *)
Lemma ZodUnion_never_TypeError types v :
  is_TypeError (parse (ZodUnion types) v) = false.
Proof.
  destruct (parse (ZodUnion types) v) as [w|e] eqn:H; [reflexivity|].
  apply ZodUnion_throws_iff in H as [_ ->]. reflexivity.
Qed.

Lemma ZodIntersection_never_TypeError a b v :
  is_TypeError (parse (ZodIntersection a b) v) = false.
Proof.
  destruct (parse (ZodIntersection a b) v) as [w|e] eqn:H; [reflexivity|].
  apply ZodIntersection_throws_iff in H as (_ & _ & ->). reflexivity.
Qed.

(** X1.  [ZodUnion.parse] returns the result of the first child that
    succeeds: the children before it have all thrown (whatever they
    threw), the children after it are not looked at. *)
Theorem union_returns_first_success
    (v : value) (before after : list ZodType) (t : ZodType) (r : value) :
  Forall (fun t' => fails (parse t' v) = true) before ->
  parse t v = Return r ->
  parse (ZodUnion (before ++ t :: after)) v = Return r.
Proof. apply ZodUnion_first_success. Qed.

Lemma union_returns_first_success_witness :
  parse (ZodUnion [ZodNumber_create None; ZodString_min None 3;
                   ZodString_create None; ZodUnknown])
        (VString "ab")
    = Return (VString "ab").
Proof.
  apply (union_returns_first_success (VString "ab")
           [ZodNumber_create None; ZodString_min None 3]
           [ZodUnknown] (ZodString_create None) (VString "ab")).
  - repeat constructor.
  - reflexivity.
Defined.

(** X2.  [ZodUnion.parse] throws exactly when every child throws a
    [TypeError]; it then throws an [Error] whose message is
    ["Invalid values: \n "] followed by the children's messages, in order,
    joined by line feeds.  In particular the empty union rejects every
    value. *)
Theorem union_throws_exactly_on_all_TypeErrors
    (types : list ZodType) (v : value) (e : exn) :
  (parse (ZodUnion types) v = Throw e <->
   exists errors,
     Forall2 (fun t e' => parse t v = Throw e' /\ cls e' = TypeError)
             types errors /\
     e = mkExn Error
           ("Invalid values: " ++ LF ++ " " ++ join LF (map msg errors))) /\
  parse (ZodUnion []) v = Throw (mkExn Error ("Invalid values: " ++ LF ++ " ")).
Proof.
  split; [|reflexivity].
  rewrite ZodUnion_throws_iff. split.
  - intros [Hall ->]. exists (captured v types). split; [|reflexivity].
    now apply all_TypeError_captured.
  - intros (errors & Hall & ->).
    pose proof (captured_all_TypeError _ _ _ Hall) as Hc. split.
    + rewrite <- Hc in Hall. clear Hc.
      induction Hall as [|t e' types errs [Ht He] _ IH]; constructor; auto.
      apply is_TypeError_iff. eauto.
    + now rewrite Hc.
Qed.

(** X3.  A chain of [or] calls never throws: the inner union is a child
    of the outer one, and what it throws is an [Error], which the outer
    [catch] does not count. *)
Theorem or_chain_never_throws (a b c : ZodType) (v : value) :
  succeeds (parse (or (or a b) c) v) = true /\
  succeeds (parse (or a (or b c)) v) = true.
Proof.
  unfold or. split.
  - destruct (parse (ZodUnion [ZodUnion [a; b]; c]) v) as [w|e] eqn:H; [reflexivity|].
    apply ZodUnion_throws_iff in H as [Hall _].
    apply Forall_cons in Hall as [Hinner _].
    now rewrite (ZodUnion_never_TypeError [a; b] v) in Hinner.
  - destruct (parse (ZodUnion [a; ZodUnion [b; c]]) v) as [w|e] eqn:H; [reflexivity|].
    apply ZodUnion_throws_iff in H as [Hall _].
    apply Forall_cons in Hall as [_ Hall].
    apply Forall_cons in Hall as [Hinner _].
    now rewrite (ZodUnion_never_TypeError [b; c] v) in Hinner.
Qed.

(** X4.  [ZodIntersection.parse] throws exactly when both sides throw a
    [TypeError], and then an [Error] carrying both messages; whenever it
    returns, it returns its input. *)
Theorem intersection_throws_exactly_on_two_TypeErrors
    (a b : ZodType) (v : value) :
  (forall e,
     parse (ZodIntersection a b) v = Throw e <->
     exists ea eb,
       parse a v = Throw ea /\ cls ea = TypeError /\
       parse b v = Throw eb /\ cls eb = TypeError /\
       e = mkExn Error
             ("Invalid values: " ++ LF ++ " " ++ msg ea ++ LF ++ msg eb)) /\
  (forall w, parse (ZodIntersection a b) v = Return w -> w = v).
Proof.
  split; [|intros w; apply ZodIntersection_returns_input].
  intros e. rewrite ZodIntersection_throws_iff, !is_TypeError_iff. split.
  - intros ((ea & Ha & Hea) & (eb & Hb & Heb) & ->).
    exists ea, eb. repeat split; auto. cbn. rewrite Ha, Hb.
    apply instanceof_TypeError_iff in Hea, Heb. rewrite Hea, Heb. reflexivity.
  - intros (ea & eb & Ha & Hea & Hb & Heb & ->). repeat split; eauto.
    cbn. rewrite Ha, Hb.
    apply instanceof_TypeError_iff in Hea, Heb. rewrite Hea, Heb. reflexivity.
Qed.

(** X5.  A chain of [and] calls accepts every value and returns it: the
    inner intersection never throws a [TypeError], so the outer one never
    counts two errors. *)
Theorem and_chain_accepts_everything (a b c : ZodType) (v : value) :
  parse (and (and a b) c) v = Return v /\
  parse (and a (and b c)) v = Return v.
Proof.
  unfold and. split.
  - destruct (parse (ZodIntersection (ZodIntersection a b) c) v) as [w|e] eqn:H.
    + f_equal. eapply ZodIntersection_returns_input; eauto.
    + apply ZodIntersection_throws_iff in H as (Hinner & _ & _).
      now rewrite (ZodIntersection_never_TypeError a b v) in Hinner.
  - destruct (parse (ZodIntersection a (ZodIntersection b c)) v) as [w|e] eqn:H.
    + f_equal. eapply ZodIntersection_returns_input; eauto.
    + apply ZodIntersection_throws_iff in H as (_ & Hinner & _).
      now rewrite (ZodIntersection_never_TypeError b c v) in Hinner.
Qed.

(** ** Arrays *)

Lemma for_of_succeeds {A B} (f : A -> completion B) items :
  for_of f items = Return tt <-> Forall (fun x => succeeds (f x) = true) items.
Proof.
  induction items as [|x items IH]; cbn.
  - split; auto.
  - destruct (f x) as [w|e] eqn:Hx.
    + rewrite IH. split.
      * intros H. constructor; [now rewrite Hx|assumption].
      * intros H. now apply Forall_cons in H as [_ H].
    + split; [discriminate|]. intros H. apply Forall_cons in H as [H _].
      rewrite Hx in H. discriminate.
Qed.

Lemma for_of_first_failure {A B} (f : A -> completion B) before x after e :
  Forall (fun y => succeeds (f y) = true) before ->
  f x = Throw e ->
  for_of f (before ++ x :: after) = Throw e.
Proof.
  intros Hb Hx. induction Hb as [|y before Hy _ IH]; cbn.
  - now rewrite Hx.
  - apply succeeds_true_iff in Hy as [w Hw]. now rewrite Hw.
Qed.

(** X6.  [ZodArray.parse] accepts exactly the arrays all of whose
    elements the element schema accepts (the empty array among them),
    returns the array it was given, and rejects whatever is not an array
    with [TypeError('Not an array')]. *)
Theorem array_accepts_arrays_of_accepted_elements
    (element : ZodType) (v : value) :
  (succeeds (parse (ZodArray element) v) = true <->
   exists items,
     v = VArray items /\
     Forall (fun x => succeeds (parse element x) = true) items) /\
  (forall w, parse (ZodArray element) v = Return w -> w = v) /\
  ((forall items, v <> VArray items) ->
   parse (ZodArray element) v = Throw (mkExn TypeError "Not an array")).
Proof.
  split; [|split].
  - destruct v; cbn;
      try (split; [discriminate|intros (items' & H & _); discriminate]).
    split.
    + intros H. exists items. split; [reflexivity|]. apply for_of_succeeds.
      destruct (for_of (parse element) items) as [[]|e];
        [reflexivity|discriminate].
    + intros (items' & [= <-] & H). apply for_of_succeeds in H.
      now rewrite H.
  - intros w H. cbn in H. destruct v; try discriminate.
    destruct (for_of _ _); congruence.
  - intros Hv. destruct v; try reflexivity. now destruct (Hv items).
Qed.

(** X7.  [ZodArray.parse] fails fast: with the elements before index [i]
    accepted, what the element schema throws on element [i] is thrown
    unchanged, whatever comes after. *)
Theorem array_throws_first_element_failure
    (element : ZodType) (before after : list value) (x : value) (e : exn) :
  Forall (fun y => succeeds (parse element y) = true) before ->
  parse element x = Throw e ->
  parse (ZodArray element) (VArray (before ++ x :: after)) = Throw e.
Proof.
  intros Hb Hx. cbn. now rewrite (for_of_first_failure _ _ _ _ _ Hb Hx).
Qed.

Lemma array_throws_first_element_failure_witness :
  parse (ZodArray (ZodString_min None 2))
        (VArray [VString "ab"; VString "c"; VNumber 1])
    = Throw (mkExn Error "Must be at least 2 characters").
Proof.
  apply (array_throws_first_element_failure (ZodString_min None 2)
           [VString "ab"] [VNumber 1] (VString "c")).
  - repeat constructor.
  - reflexivity.
Defined.

(** ** Objects of the class-based encoding *)

(** X8.  [ZodObject.parse] accepts exactly the records (arrays and
    objects) in which every declared field accepts the value read under
    its key: an own property if there is one, else what the prototype
    chain holds under that name, else [undefined]; a record it accepts
    is returned as it is. *)
Theorem object_accepts_iff_every_field_accepts
    (fields : list (string * ZodType)) (v : value) :
  (succeeds (parse (ZodObject fields) v) = true <->
   is_record v = true /\
   Forall (fun f => succeeds (parse f.2 (get v f.1)) = true) fields) /\
  (forall w, parse (ZodObject fields) v = Return w -> w = v).
Proof.
  split; [apply ZodObject_accepts_iff|].
  intros w H. rewrite ZodObject_parse_unfold in H.
  destruct (is_record v); [|discriminate].
  destruct (ZodObject_loop _ _ _); congruence.
Qed.

(** X9.  [ZodObject.parse] fails fast in field order: with the fields
    declared before [k] accepted, what the schema of [k] throws is thrown
    unchanged. *)
Theorem object_throws_first_field_failure
    (before after : list (string * ZodType)) (k : string) (t : ZodType)
    (r : value) (e : exn) :
  is_record r = true ->
  Forall (fun f => succeeds (parse f.2 (get r f.1)) = true) before ->
  parse t (get r k) = Throw e ->
  parse (ZodObject (before ++ (k, t) :: after)) r = Throw e.
Proof.
  intros Hr Hb Ht. rewrite ZodObject_parse_unfold, Hr.
  now rewrite (ZodObject_loop_first_failure _ _ _ _ _ _ Hb Ht).
Qed.

Lemma object_throws_first_field_failure_witness :
  parse (ZodObject [("a", ZodString_create None);
                    ("b", ZodNumber_min None 10);
                    ("c", ZodString_create None)])
        (VObject [("c", VNumber 0); ("b", VNumber 3); ("a", VString "x")])
    = Throw (mkExn Error "Must be at least 10").
Proof.
  apply (object_throws_first_field_failure
           [("a", ZodString_create None)] [("c", ZodString_create None)]
           "b" (ZodNumber_min None 10)).
  - reflexivity.
  - repeat constructor.
  - reflexivity.
Defined.

(** X10.  [ZodObject.parse] ignores the keys of the input that the schema
    does not declare: adding one changes neither the verdict nor the
    exception thrown, and an accepted record is returned with it. *)
Theorem object_ignores_undeclared_key
    (fields : list (string * ZodType)) (p1 p2 : list (string * value))
    (k : string) (x : value) :
  (forall t, ~ In (k, t) fields) ->
  (forall e, parse (ZodObject fields) (VObject (p1 ++ p2)) = Throw e ->
             parse (ZodObject fields) (VObject (p1 ++ (k, x) :: p2)) = Throw e) /\
  (succeeds (parse (ZodObject fields) (VObject (p1 ++ p2))) = true ->
   parse (ZodObject fields) (VObject (p1 ++ (k, x) :: p2))
     = Return (VObject (p1 ++ (k, x) :: p2))).
Proof.
  intros Hk.
  pose proof (ZodObject_ignores_undeclared_key fields p1 p2 k x Hk) as H.
  destruct (parse (ZodObject fields) (VObject (p1 ++ p2))) as [w|e'].
  - split; [discriminate|]. intros _. apply H.
  - split; [|discriminate]. now intros e [= <-].
Qed.

Lemma object_ignores_undeclared_key_witness :
  parse (ZodObject [("a", ZodString_create None)])
        (VObject [("a", VString "x"); ("extra", VNumber 1); ("z", VNull)])
    = Return (VObject [("a", VString "x"); ("extra", VNumber 1); ("z", VNull)]).
Proof.
  assert (Hk : forall t, ~ In ("extra", t) [("a", ZodString_create None)]).
  { intros t [H|[]]. discriminate. }
  apply (object_ignores_undeclared_key
           [("a", ZodString_create None)]
           [("a", VString "x")] [("z", VNull)] "extra" (VNumber 1) Hk).
  reflexivity.
Defined.



(** X12.  The order in which the fields are declared does not change
    which inputs [ZodObject.parse] accepts (it only decides which failure
    is thrown first). *)
Theorem object_acceptance_ignores_field_order
    (fields fields' : list (string * ZodType)) (v : value) :
  Permutation fields fields' ->
  succeeds (parse (ZodObject fields) v)
    = succeeds (parse (ZodObject fields') v).
Proof.
  intros Hperm.
  pose proof (ZodObject_accepts_iff fields v) as H1.
  pose proof (ZodObject_accepts_iff fields' v) as H2.
  destruct (succeeds (parse (ZodObject fields) v)),
           (succeeds (parse (ZodObject fields') v)); try reflexivity.
  - symmetry. apply H2. destruct H1 as [H1 _].
    destruct (H1 eq_refl) as [Hr Hall]. split; [exact Hr|].
    exact (Permutation_Forall Hperm Hall).
  - apply H1. destruct H2 as [H2 _].
    destruct (H2 eq_refl) as [Hr Hall]. split; [exact Hr|].
    exact (Permutation_Forall (Permutation_sym Hperm) Hall).
Qed.

Lemma object_acceptance_ignores_field_order_witness :
  succeeds (parse (ZodObject [("a", ZodString_create None);
                              ("b", ZodNumber_create None)])
                  (VObject [("a", VNumber 1); ("b", VString "x")]))
  = succeeds (parse (ZodObject [("b", ZodNumber_create None);
                                ("a", ZodString_create None)])
                    (VObject [("a", VNumber 1); ("b", VString "x")])).
Proof.
  apply (object_acceptance_ignores_field_order
           [("a", ZodString_create None); ("b", ZodNumber_create None)]
           [("b", ZodNumber_create None); ("a", ZodString_create None)]).
  apply perm_swap.
Defined.

(** X13.  The guard of [ZodObject.parse] lets arrays through as records:
    a field named [length] is validated against the length of the array
    and a field named [0] against its first element; whatever is not of
    type ['object'], and [null], is rejected with the plain
    [Error('Not an object')]. *)
Theorem object_reads_arrays_as_records
    (t : ZodType) (x : value) (rest : list value)
    (fields : list (string * ZodType)) (v : value) :
  succeeds (parse (ZodObject [("length", t)]) (VArray rest))
    = succeeds (parse t (VNumber (Int (Z.of_nat (length rest))))) /\
  succeeds (parse (ZodObject [("0", t)]) (VArray (x :: rest)))
    = succeeds (parse t x) /\
  ((typeof v <> TyObject \/ v = VNull) ->
   parse (ZodObject fields) v = Throw (mkExn Error "Not an object")).
Proof.
  split; [|split].
  - rewrite ZodObject_parse_unfold. cbn.
    now destruct (parse t (VNumber (Int (Z.of_nat (length rest))))).
  - rewrite ZodObject_parse_unfold. cbn. now destruct (parse t x).
  - intros [Hv| ->]; [|reflexivity].
    destruct v; try reflexivity; now destruct Hv.
Qed.

(** ** What is returned, and [optional] *)

(** X14.  The class-based [parse] never transforms its input: what it
    returns is the input itself or, from [ZodOptional] on [undefined] and
    from a union that falls through, [undefined]. *)
Theorem parse_result_is_input_or_undefined (t : ZodType) (v w : value) :
  parse t v = Return w -> w = v \/ w = VUndefined.
Proof. apply parse_returns_input_or_undefined. Qed.

Lemma parse_result_is_input_or_undefined_witness :
  VArray [VString "a"; VNull] = VArray [VString "a"; VNull] \/
  VArray [VString "a"; VNull] = VUndefined.
Proof.
  apply (parse_result_is_input_or_undefined
           (and (ZodArray (or (ZodString_create None) ZodUnknown))
                (optional (ZodObject [("length", ZodNumber_max None 5)])))
           (VArray [VString "a"; VNull])).
  reflexivity.
Defined.

(** X15.  [optional()] adds [undefined] to what a schema accepts and
    nothing else, passes on the child's outcome for every other input,
    and wrapping twice is the same as wrapping once. *)
Theorem optional_accepts_undefined_and_what_the_child_accepts
    (S : ZodType) (v : value) :
  (succeeds (parse (optional S) v) = true <->
   v = VUndefined \/ succeeds (parse S v) = true) /\
  (forall e, parse (optional S) v = Throw e <->
             v <> VUndefined /\ parse S v = Throw e) /\
  parse (optional (optional S)) v = parse (optional S) v.
Proof.
  unfold optional. split; [|split].
  - destruct v; cbn; split; auto; intros [H|H]; auto; discriminate.
  - intros e. destruct v; cbn; split; try (intros [_ H]; exact H);
      try (intros H; split; [discriminate|exact H]).
    + discriminate.
    + intros [H _]. contradiction.
  - now destruct v.
Qed.

(** ** More on refinements *)

(** With checkers that all return, the loop succeeds exactly when all of
    them return true. *)
Lemma run_checkers_succeeds_iff {T} (checkers : list (ZodChecker T)) value :
  Forall (returns value) checkers ->
  (run_checkers checkers value = Return tt <-> Forall (passes value) checkers).
Proof.
  induction 1 as [|c rest [verdict Hc] _ IH]; cbn.
  - split; auto.
  - rewrite Hc. destruct verdict.
    + rewrite IH. split.
      * intros H. constructor; assumption.
      * intros H. now apply Forall_cons in H as [_ H].
    + split; [discriminate|]. intros H. apply Forall_cons in H as [H _].
      unfold passes in H. congruence.
Qed.

Lemma ZodString_max_parse this max s :
  parse (ZodString_max this max) (VString s) =
    match parse (ZodString_create this) (VString s) with
    | Throw e => Throw e
    | Return _ =>
        if num_leb (Int (Z.of_nat (String.length s))) max
        then Return (VString s)
        else Throw (mkExn Error
                      ("Must be at most " ++ Number_toString max
                                          ++ " characters"))
    end.
Proof.
  unfold ZodString_max, ZodString_create. rewrite !ZodString_parse_string.
  cbn [checkers_of_string string_checkers default from_option id].
  rewrite run_checkers_snoc.
  destruct (run_checkers (checkers_of_string this) s); [|reflexivity].
  cbn [run_checkers checker message string_max_checker].
  now destruct (num_leb _ max).
Qed.

Lemma ZodNumber_max_parse this max z :
  parse (ZodNumber_max this max) (VNumber z) =
    match parse (ZodNumber_create this) (VNumber z) with
    | Throw e => Throw e
    | Return _ =>
        if num_leb z max then Return (VNumber z)
        else Throw (mkExn Error ("Must be at most " ++ Number_toString max))
    end.
Proof.
  unfold ZodNumber_max, ZodNumber_create. rewrite !ZodNumber_parse_number.
  cbn [checkers_of_number number_checkers default from_option id].
  rewrite run_checkers_snoc.
  destruct (run_checkers (checkers_of_number this) z); [|reflexivity].
  cbn [run_checkers checker message number_max_checker].
  now destruct (num_leb z max).
Qed.

(** X16.  On inputs that pass the receiver's checkers,
    [ZodString.max(n)] accepts exactly the strings for which the test
    [s.length <= n] holds and [ZodNumber.max(n)] exactly the numbers for
    which [value <= n] holds; it rejects the others with an [Error] whose
    message prints the bound as the template literal does.  The test is
    the usual order on integers (the bound itself is accepted) and fails
    as soon as the bound or the value is [NaN]. *)
Theorem max_accepts_exactly_up_to_the_bound
    (this : option ZodStringDefine) (s : string)
    (nthis : option ZodNumberDefine) (z : number) (n : number) :
  Forall (passes s) (checkers_of_string this) ->
  Forall (passes z) (checkers_of_number nthis) ->
  let len := Int (Z.of_nat (String.length s)) in
  (num_leb len n = true ->
   parse (ZodString_max this n) (VString s) = Return (VString s)) /\
  (num_leb len n = false ->
   parse (ZodString_max this n) (VString s)
     = Throw (mkExn Error
                ("Must be at most " ++ Number_toString n ++ " characters"))) /\
  (num_leb z n = true ->
   parse (ZodNumber_max nthis n) (VNumber z) = Return (VNumber z)) /\
  (num_leb z n = false ->
   parse (ZodNumber_max nthis n) (VNumber z)
     = Throw (mkExn Error ("Must be at most " ++ Number_toString n))) /\
  (forall j k : Z, num_leb (Int j) (Int k) = true <-> (j <= k)%Z) /\
  num_leb len NaN = false /\
  num_leb z NaN = false /\
  num_leb NaN n = false.
Proof.
  intros Hs Hz len.
  pose proof (ZodString_max_parse this n s) as Hmax_s.
  pose proof (ZodNumber_max_parse nthis n z) as Hmax_z.
  unfold ZodString_create in Hmax_s. unfold ZodNumber_create in Hmax_z.
  rewrite ZodString_parse_string, (run_checkers_all_pass _ _ Hs) in Hmax_s.
  rewrite ZodNumber_parse_number, (run_checkers_all_pass _ _ Hz) in Hmax_z.
  fold len in Hmax_s. rewrite Hmax_s, Hmax_z.
  split; [now intros ->|]. split; [now intros ->|].
  split; [now intros ->|]. split; [now intros ->|].
  split; [intros j k; rewrite num_leb_Int; apply Z.leb_le|].
  split; [reflexivity|]. split; [apply num_leb_NaN_r|reflexivity].
Qed.

Lemma max_accepts_exactly_up_to_the_bound_witness :
  parse (ZodString_max (ZodString_definition (ZodString_min None 1)) 2)
        (VString "abc")
    = Throw (mkExn Error "Must be at most 2 characters") /\
  parse (ZodNumber_max None 2) (VNumber 2) = Return (VNumber 2) /\
  parse (ZodNumber_max None (Dec 1 21)) (VNumber NaN)
    = Throw (mkExn Error "Must be at most 1e+21").
Proof.
  assert (Hs : Forall (passes "abc")
                 (checkers_of_string
                    (ZodString_definition (ZodString_min None 1))))
    by (repeat constructor).
  assert (Hz : forall z : number, Forall (passes z) (checkers_of_number None))
    by constructor.
  destruct (max_accepts_exactly_up_to_the_bound
              (ZodString_definition (ZodString_min None 1)) "abc"
              None 2 2 Hs (Hz 2%num)) as (_ & Hlong & Hle & _).
  destruct (max_accepts_exactly_up_to_the_bound
              (ZodString_definition (ZodString_min None 1)) "abc"
              None NaN (Dec 1 21) Hs (Hz NaN)) as (_ & _ & _ & Hnan & _).
  split; [apply Hlong; reflexivity|].
  split; [apply Hle; reflexivity|apply Hnan; reflexivity].
Defined.



Lemma run_checkers_permutation {T} (cs cs' : list (ZodChecker T)) value :
  Forall (returns value) cs -> Permutation cs cs' ->
  succeeds (run_checkers cs value) = succeeds (run_checkers cs' value).
Proof.
  intros Hret Hperm.
  pose proof (Permutation_Forall Hperm Hret) as Hret'.
  pose proof (run_checkers_succeeds_iff cs value Hret) as H1.
  pose proof (run_checkers_succeeds_iff cs' value Hret') as H2.
  destruct (run_checkers cs value) as [[]|e1],
           (run_checkers cs' value) as [[]|e2]; cbn; try reflexivity.
  - destruct H1 as [H1 _]. destruct H2 as [_ H2].
    discriminate (H2 (Permutation_Forall Hperm (H1 eq_refl))).
  - destruct H1 as [_ H1]. destruct H2 as [H2 _].
    discriminate (H1 (Permutation_Forall (Permutation_sym Hperm) (H2 eq_refl))).
Qed.

(** X18.  As long as the checkers return on the input, the order in which
    refinements were chained does not change whether [ZodString.parse]
    and [ZodNumber.parse] accept it (only which message is reported). *)
Theorem acceptance_ignores_refinement_order
    (cs cs' : list (ZodChecker string)) (s : string)
    (ns ns' : list (ZodChecker number)) (z : number) :
  Forall (returns s) cs -> Permutation cs cs' ->
  Forall (returns z) ns -> Permutation ns ns' ->
  succeeds (parse (ZodString_create (Some (mkStringDefine (Some cs))))
                  (VString s))
    = succeeds (parse (ZodString_create (Some (mkStringDefine (Some cs'))))
                      (VString s)) /\
  succeeds (parse (ZodNumber_create (Some (mkNumberDefine (Some ns))))
                  (VNumber z))
    = succeeds (parse (ZodNumber_create (Some (mkNumberDefine (Some ns'))))
                      (VNumber z)).
Proof.
  intros Hs Hps Hz Hpz. unfold ZodString_create, ZodNumber_create.
  rewrite !ZodString_parse_string, !ZodNumber_parse_number.
  cbn [checkers_of_string string_checkers checkers_of_number number_checkers
       default from_option id].
  pose proof (run_checkers_permutation cs cs' s Hs Hps) as H1.
  pose proof (run_checkers_permutation ns ns' z Hz Hpz) as H2.
  destruct (run_checkers cs s), (run_checkers cs' s),
           (run_checkers ns z), (run_checkers ns' z);
    cbn in *; auto; discriminate.
Qed.

Lemma acceptance_ignores_refinement_order_witness :
  succeeds (parse (ZodString_create
                     (Some (mkStringDefine
                              (Some [string_min_checker 3; string_max_checker 1]))))
                  (VString "ab"))
    = succeeds (parse (ZodString_create
                         (Some (mkStringDefine
                                  (Some [string_max_checker 1; string_min_checker 3]))))
                      (VString "ab")).
Proof.
  assert (Hs : Forall (returns "ab") [string_min_checker 3; string_max_checker 1])
    by (repeat constructor; eexists; reflexivity).
  assert (Hz : Forall (returns 0%num) (@nil (ZodChecker number)))
    by constructor.
  exact (proj1 (acceptance_ignores_refinement_order
                  [string_min_checker 3; string_max_checker 1]
                  [string_max_checker 1; string_min_checker 3] "ab"
                  [] [] 0 Hs (perm_swap _ _ _) Hz (perm_nil _))).
Defined.

(** X19.  A base schema can be refined twice into two independent
    schemas: after [a = base.min(x)] and then [b = base.max(y)], [a] still
    reads the base's checkers followed by the one of [min], [b] reads
    them followed by the one of [max], and [base] reads what it read
    before. *)
Theorem refinements_of_one_base_are_independent
    (σ : gmap positive (list (ZodChecker string)))
    (base : Store.Inst) (x y : number) :
  Store.valid σ base = true ->
  let first := Store.ZodString_min base x σ in
  let second := Store.ZodString_max base y first.2 in
  Store.checkers_of second.2 first.1
    = Store.checkers_of σ base ++ [string_min_checker x] /\
  Store.checkers_of second.2 second.1
    = Store.checkers_of σ base ++ [string_max_checker y] /\
  Store.checkers_of second.2 base = Store.checkers_of σ base.
Proof.
  intros Hv first second. unfold second, first, Store.ZodString_max,
    Store.ZodString_min.
  set (r1 := Store.refine (string_min_checker x) base σ).
  destruct (refine_keeps_instance (string_min_checker x) base σ base Hv)
    as [Hv1 Hc1]. fold r1 in Hv1, Hc1.
  pose proof (refine_new_valid (string_min_checker x) base σ) as Hnew.
  fold r1 in Hnew.
  destruct (refine_keeps_instance (string_max_checker y) base r1.2 r1.1 Hnew)
    as [_ Hc2].
  destruct (refine_keeps_instance (string_max_checker y) base r1.2 base Hv1)
    as [_ Hc3].
  split; [|split].
  - rewrite Hc2. apply refine_appends.
  - rewrite refine_appends. now rewrite Hc1.
  - now rewrite Hc3.
Qed.

Lemma refinements_of_one_base_are_independent_witness :
  let σ : gmap positive (list (ZodChecker string)) :=
    {[ 1%positive := [string_min_checker 2] ]} in
  let base := Store.mkInst (Some (Store.mkDefine (Some 1%positive))) in
  let first := Store.ZodString_min base 5 σ in
  let second := Store.ZodString_max base 3 first.2 in
  Store.checkers_of second.2 first.1
    = [string_min_checker 2; string_min_checker 5] /\
  Store.checkers_of second.2 second.1
    = [string_min_checker 2; string_max_checker 3] /\
  Store.checkers_of second.2 base = [string_min_checker 2].
Proof.
  intros σ base first second.
  assert (Hv : Store.valid σ base = true) by reflexivity.
  exact (refinements_of_one_base_are_independent σ base 5 3 Hv).
Defined.

(** ** The interface-based encoding *)

Lemma call_field_parse_assoc fields key x :
  Schema.call_field_parse Schema.parse fields key x =
    match assoc key fields with
    | Some t => Schema.parse t x
    | None => Throw (Schema.missing_field key)
    end.
Proof.
  induction fields as [|[k t] fields IH]; cbn; [reflexivity|].
  destruct (String.eqb k key); [reflexivity|exact IH].
Qed.

Lemma missing_field_is_a_TypeError key :
  cls (Schema.missing_field key) = TypeError.
Proof.
  unfold Schema.missing_field.
  now destruct (Object_prototype_get VObjectPrototype key).
Qed.

Lemma Schema_object_guard v :
  negb (type_tag_eqb (typeof v) TyObject) || strict_eq_null v
    = negb (is_record v).
Proof. now destruct v. Qed.

Lemma Schema_object_parse_unfold fields v :
  Schema.parse (Schema.ZodObject fields) v =
    if is_record v
    then match for_of (fun kv => Schema.call_field_parse
                                   Schema.parse fields kv.1 kv.2)
                      (entries v) with
         | Throw e => Throw e
         | Return _ => Return v
         end
    else Throw (mkExn ZodTypeError "Invalid object").
Proof.
  cbn. rewrite Schema_object_guard. destruct (is_record v); cbn; [|reflexivity].
  assert (Hf : forall l,
             for_of (fun '(key, value) =>
                       Schema.call_field_parse Schema.parse fields key value) l
             = for_of (fun kv => Schema.call_field_parse
                                   Schema.parse fields kv.1 kv.2) l).
  { induction l as [|[k x] l IH]; cbn; [reflexivity|]. now rewrite IH. }
  now rewrite Hf.
Qed.

(** X20.  [object] of [src/schema.ts] validates the input's own entries:
    it accepts exactly the records (arrays and objects) each of whose
    keys is declared in [fields] with a schema accepting the value under
    it.  So it accepts the empty object whatever fields are declared, and
    an entry under an undeclared key makes it throw. *)
Theorem Schema_object_accepts_iff_entries_are_declared
    (fields : list (string * Schema.ZodType)) (v : value) :
  (succeeds (Schema.parse (Schema.ZodObject fields) v) = true <->
   is_record v = true /\
   Forall (fun kv => exists t, assoc kv.1 fields = Some t /\
                               succeeds (Schema.parse t kv.2) = true)
          (entries v)) /\
  Schema.parse (Schema.ZodObject fields) (VObject []) = Return (VObject []) /\
  (forall props k x,
     assoc k fields = None ->
     fails (Schema.parse (Schema.ZodObject fields)
                         (VObject (props ++ [(k, x)]))) = true).
Proof.
  assert (Hiff : forall u,
    succeeds (Schema.parse (Schema.ZodObject fields) u) = true <->
    is_record u = true /\
    Forall (fun kv => exists t, assoc kv.1 fields = Some t /\
                                succeeds (Schema.parse t kv.2) = true)
           (entries u)).
  { intros u. rewrite Schema_object_parse_unfold.
    destruct (is_record u); [|split; [discriminate|intros [H _]; discriminate]].
    assert (Hent : forall l,
      for_of (fun kv => Schema.call_field_parse Schema.parse fields kv.1 kv.2) l
        = Return tt <->
      Forall (fun kv => exists t, assoc kv.1 fields = Some t /\
                                  succeeds (Schema.parse t kv.2) = true) l).
    { intros l. rewrite for_of_succeeds. apply Forall_iff. intros [k x]. cbn.
      rewrite call_field_parse_assoc. destruct (assoc k fields) as [t|].
      - split; [eauto|]. now intros (t' & [= <-] & H).
      - split; [discriminate|]. intros (t' & H & _). discriminate. }
    rewrite <- Hent.
    destruct (for_of _ (entries u)) as [[]|e]; cbn; split; auto;
      try discriminate. intros [_ H]. discriminate. }
  split; [apply Hiff|]. split; [reflexivity|].
  intros props k x Hk. unfold fails.
  destruct (succeeds (Schema.parse (Schema.ZodObject fields)
                                   (VObject (props ++ [(k, x)])))) eqn:Hs;
    [|reflexivity].
  apply Hiff in Hs as [_ Hall]. cbn in Hall.
  apply Forall_app in Hall as [_ Hall]. apply Forall_cons in Hall as [Hkx _].
  destruct Hkx as (t & Ht & _). cbn in Ht. congruence.
Qed.

Lemma map_items_succeeds {A B} (f : A -> completion B) items :
  succeeds (map_items f items) = true <->
  Forall (fun x => succeeds (f x) = true) items.
Proof.
  rewrite <- for_of_succeeds.
  pose proof (map_items_for_of_succeeds f f items (fun _ => eq_refl)) as H.
  rewrite H. destruct (for_of f items) as [[]|e]; cbn; split; auto; discriminate.
Qed.

Lemma map_items_first_failure {A B} (f : A -> completion B) before x after e :
  Forall (fun y => succeeds (f y) = true) before ->
  f x = Throw e ->
  map_items f (before ++ x :: after) = Throw e.
Proof.
  intros Hb Hx. induction Hb as [|y before Hy _ IH]; cbn.
  - now rewrite Hx.
  - apply succeeds_true_iff in Hy as [w Hw]. now rewrite Hw, IH.
Qed.

(** X21.  [array] of [src/schema.ts] accepts exactly the arrays all of
    whose elements the element schema accepts, and rejects whatever is
    not an array with [ZodTypeError('Invalid array')]; it fails fast,
    throwing what the element schema throws on the first rejected
    element. *)
Theorem Schema_array_accepts_arrays_of_accepted_elements
    (element : Schema.ZodType) (v : value) :
  (succeeds (Schema.parse (Schema.ZodArray element) v) = true <->
   exists items,
     v = VArray items /\
     Forall (fun x => succeeds (Schema.parse element x) = true) items) /\
  ((forall items, v <> VArray items) ->
   Schema.parse (Schema.ZodArray element) v
     = Throw (mkExn ZodTypeError "Invalid array")) /\
  (forall before x after e,
     Forall (fun y => succeeds (Schema.parse element y) = true) before ->
     Schema.parse element x = Throw e ->
     Schema.parse (Schema.ZodArray element) (VArray (before ++ x :: after))
       = Throw e).
Proof.
  split; [|split].
  - destruct v; cbn;
      try (split; [discriminate|intros (items' & H & _); discriminate]).
    split.
    + intros H. exists items. split; [reflexivity|]. apply map_items_succeeds.
      now destruct (map_items (Schema.parse element) items).
    + intros (items' & [= <-] & H). apply map_items_succeeds in H.
      now destruct (map_items (Schema.parse element) items).
  - intros Hv. destruct v; try reflexivity. now destruct (Hv items).
  - intros before x after e Hb Hx. cbn.
    now rewrite (map_items_first_failure _ _ _ _ _ Hb Hx).
Qed.

(** X22.  In [src/schema.ts] a successful [parse] returns a value equal
    to its input (the array rebuilt by [array] included), so parsing the
    output again succeeds with the same output. *)
Theorem Schema_parse_returns_its_input
    (t : Schema.ZodType) (v w : value) :
  Schema.parse t v = Return w ->
  w = v /\ Schema.parse t w = Return w.
Proof.
  intros H. split.
  - eapply Schema_parse_returns_input; eauto.
  - eapply Schema_parse_idempotent; eauto.
Qed.

Lemma Schema_parse_returns_its_input_witness :
  let t := Schema.ZodArray (Schema.ZodObject [("a", Schema.ZodString)]) in
  let v := VArray [VObject [("a", VString "x")]; VObject []] in
  v = v /\ Schema.parse t v = Return v.
Proof.
  intros t v.
  apply (Schema_parse_returns_its_input t v v). reflexivity.
Defined.

(** X23.  On schemas built without [object] and on inputs whose arrays
    are dense (no holes, which is all a [VArray] can hold), the two
    encodings accept the same inputs. *)
Theorem encodings_accept_the_same_without_objects
    (t : Schema.ZodType) (v : value) :
  object_free t = true ->
  succeeds (Schema.parse t v) = succeeds (parse (to_class t) v).
Proof. intros H. now apply encodings_agree_without_objects. Qed.

Lemma encodings_accept_the_same_without_objects_witness :
  succeeds (Schema.parse (Schema.ZodArray (Schema.ZodArray Schema.ZodNumber))
                         (VArray [VArray [VNumber 1]; VArray [VString "x"]]))
  = succeeds (parse (to_class (Schema.ZodArray (Schema.ZodArray Schema.ZodNumber)))
                    (VArray [VArray [VNumber 1]; VArray [VString "x"]])).
Proof.
  apply (encodings_accept_the_same_without_objects
           (Schema.ZodArray (Schema.ZodArray Schema.ZodNumber))).
  reflexivity.
Defined.

Lemma map_items_throws {A B} (f : A -> completion B) items e :
  map_items f items = Throw e -> exists x, In x items /\ f x = Throw e.
Proof.
  induction items as [|x items IH]; cbn; [discriminate|].
  destruct (f x) as [w|e'] eqn:Hx.
  - destruct (map_items f items) as [ws|e'']; [discriminate|].
    intros [= <-]. destruct (IH eq_refl) as (y & Hin & Hy). eauto.
  - intros [= <-]. eauto.
Qed.

Lemma for_of_throws {A B} (f : A -> completion B) items e :
  for_of f items = Throw e -> exists x, In x items /\ f x = Throw e.
Proof.
  induction items as [|x items IH]; cbn; [discriminate|].
  destruct (f x) as [w|e'] eqn:Hx.
  - intros H. destruct (IH H) as (y & Hin & Hy). eauto.
  - intros [= <-]. eauto.
Qed.

Lemma assoc_Some_In {A} (k : string) (l : list (string * A)) a :
  assoc k l = Some a -> In (k, a) l.
Proof.
  induction l as [|[k' a'] l IH]; cbn; [discriminate|].
  destruct (String.eqb_spec k' k) as [->|Hne].
  - intros [= ->]. now left.
  - intros H. right. now apply IH.
Qed.

(** X24.  Whatever [parse] of [src/schema.ts] throws is one of its own
    [ZodTypeError]s, with one of the four fixed messages, or a built-in
    [TypeError] raised by [object] on a key that is no field of the
    schema; without [object] in the schema it is always a
    [ZodTypeError]. *)
Theorem Schema_parse_throws_only_type_errors
    (t : Schema.ZodType) (v : value) (e : exn) :
  Schema.parse t v = Throw e ->
  (cls e = ZodTypeError /\
   In (msg e) ["Invalid string"; "Invalid number"; "Invalid array";
               "Invalid object"]) \/
  (object_free t = false /\ cls e = TypeError).
Proof.
  revert v e.
  induction t as [| | |element IH|fields IH] using Schema_nested_ind;
    intros v e H.
  - discriminate.
  - cbn in H. destruct v; try discriminate; injection H as <-;
      left; cbn; auto.
  - cbn in H. destruct v; try discriminate; injection H as <-;
      left; cbn; auto.
  - cbn in H. destruct v;
      try (injection H as <-; left; cbn; auto 6; fail).
    destruct (map_items (Schema.parse element) items) as [ws|e'] eqn:Hm;
      [discriminate|]. injection H as <-.
    apply map_items_throws in Hm as (x & _ & Hx).
    destruct (IH _ _ Hx) as [Hl|[Hof Hc]]; [now left|right]. cbn. auto.
  - rewrite Schema_object_parse_unfold in H.
    destruct (is_record v); [|injection H as <-; left; cbn; auto 6].
    destruct (for_of _ (entries v)) as [[]|e'] eqn:Hf; [discriminate|].
    injection H as <-. apply for_of_throws in Hf as ([k x] & _ & Hkx).
    cbn in Hkx. rewrite call_field_parse_assoc in Hkx.
    destruct (assoc k fields) as [t|] eqn:Hk.
    + apply assoc_Some_In in Hk. rewrite Forall_forall in IH.
      apply list_elem_of_In in Hk.
      destruct (IH _ Hk _ _ Hkx) as [Hl|[_ Hc]]; [now left|right]. auto.
    + injection Hkx as <-. right. split; [reflexivity|].
      apply missing_field_is_a_TypeError.
Qed.

Lemma Schema_parse_throws_only_type_errors_witness :
  (cls (mkExn TypeError "fields[key].parse is not a function") = ZodTypeError /\
   In (msg (mkExn TypeError "fields[key].parse is not a function"))
      ["Invalid string"; "Invalid number"; "Invalid array"; "Invalid object"]) \/
  (object_free (Schema.ZodObject [("a", Schema.ZodString)]) = false /\
   cls (mkExn TypeError "fields[key].parse is not a function") = TypeError).
Proof.
  apply (Schema_parse_throws_only_type_errors
           (Schema.ZodObject [("a", Schema.ZodString)])
           (VObject [("a", VString "x"); ("constructor", VNumber 1)])).
  reflexivity.
Defined.

(** ** Where the combinators and the two encodings do behave *)

(** X25.  On an input where every failing child fails with a
    [TypeError], [ZodUnion.parse] accepts exactly when some child
    accepts. *)
Theorem union_accepts_iff_some_child_accepts_on_TypeErrors
    (types : list ZodType) (v : value) :
  Forall (fun t => fails (parse t v) = true ->
                   is_TypeError (parse t v) = true) types ->
  (succeeds (parse (ZodUnion types) v) = true <->
   Exists (fun t => succeeds (parse t v) = true) types).
Proof.
  intros Hty. split.
  - intros Hs.
    destruct (first_success_or_all_fail v types)
      as [(before & t & after & r & -> & _ & Hr)|Hall].
    + apply Exists_app. right. constructor. now rewrite Hr.
    + exfalso.
      assert (Hte : Forall (fun t => is_TypeError (parse t v) = true) types).
      { rewrite Forall_forall in *. intros t Hin. auto. }
      assert (Hthrow : parse (ZodUnion types) v
                       = Throw (invalid_values (captured v types)))
        by (apply ZodUnion_throws_iff; auto).
      rewrite Hthrow in Hs. discriminate.
  - intros Hex.
    destruct (first_success_or_all_fail v types)
      as [(before & t & after & r & -> & Hb & Hr)|Hall].
    + now rewrite (ZodUnion_first_success _ _ _ _ _ Hb Hr).
    + exfalso. apply Exists_exists in Hex as (t & Hin & Ht).
      rewrite Forall_forall in Hall. specialize (Hall t Hin).
      unfold fails in Hall. rewrite Ht in Hall. discriminate.
Qed.

Lemma union_accepts_iff_some_child_accepts_on_TypeErrors_witness :
  succeeds (parse (ZodUnion [ZodString_create None; ZodArray ZodUnknown;
                             ZodNumber_min None 1])
                  (VBoolean true)) = true <->
  Exists (fun t => succeeds (parse t (VBoolean true)) = true)
         [ZodString_create None; ZodArray ZodUnknown; ZodNumber_min None 1].
Proof.
  apply (union_accepts_iff_some_child_accepts_on_TypeErrors
           [ZodString_create None; ZodArray ZodUnknown; ZodNumber_min None 1]
           (VBoolean true)).
  repeat constructor.
Defined.

Lemma NoDup_keys_assoc {A} (l : list (string * A)) k a :
  NoDup (map fst l) -> In (k, a) l -> assoc k l = Some a.
Proof.
  induction l as [|[k' a'] l IH]; cbn; [contradiction|].
  intros Hnd [Heq|Hin].
  - injection Heq as -> ->. now rewrite String.eqb_refl.
  - apply NoDup_cons in Hnd as [Hk' Hnd].
    destruct (String.eqb_spec k' k) as [->|Hne]; [|now apply IH].
    exfalso. apply Hk'. apply list_elem_of_In, in_map_iff.
    exists (k, a). auto.
Qed.

Lemma assoc_map_to_class fields k :
  assoc k (map (fun '(k, t) => (k, to_class t)) fields)
    = to_class <$> assoc k fields.
Proof.
  induction fields as [|[k' t] fields IH]; cbn; [reflexivity|].
  destruct (String.eqb k' k); [reflexivity|exact IH].
Qed.

(** X26.  The two encodings of an object schema do agree on the objects
    that carry exactly the declared keys, provided their field schemas
    agree: with the same keys on both sides, validating the entries of
    the input ([src/schema.ts]) and validating the declared fields
    (class-based) come to the same verdict. *)
Theorem encodings_agree_on_objects_with_exactly_the_declared_keys
    (fields : list (string * Schema.ZodType)) (props : list (string * value)) :
  NoDup (map fst fields) ->
  NoDup (map fst props) ->
  (forall k, In k (map fst props) <-> In k (map fst fields)) ->
  (forall k t x, In (k, t) fields ->
     succeeds (Schema.parse t x) = succeeds (parse (to_class t) x)) ->
  succeeds (Schema.parse (Schema.ZodObject fields) (VObject props))
    = succeeds (parse (to_class (Schema.ZodObject fields)) (VObject props)).
Proof.
  intros Hndf Hndp Hkeys Hagree.
  pose proof (Schema_object_accepts_iff_entries_are_declared
                fields (VObject props)) as [Hs _].
  pose proof (ZodObject_accepts_iff
                (map (fun '(k, t) => (k, to_class t)) fields)
                (VObject props)) as Hc.
  cbn [to_class]. apply eq_true_iff_eq. rewrite Hs, Hc.
  split; intros [_ Hall]; (split; [reflexivity|]).
  - (* the entries are fine, so the declared fields are *)
    apply Forall_forall. intros [k t'] Hin. apply list_elem_of_In in Hin.
    apply in_map_iff in Hin as ([k0 t] & [= -> <-] & Hin). cbn [fst snd].
    assert (Hk : In k (map fst props)).
    { apply Hkeys, in_map_iff. exists (k, t). auto. }
    apply in_map_iff in Hk as ([k1 x] & Hk1 & Hinp). cbn in Hk1. subst k1.
    cbn [get]. rewrite (NoDup_keys_assoc props k x Hndp Hinp). cbn.
    cbn in Hall. rewrite Forall_forall in Hall.
    apply list_elem_of_In in Hinp.
    destruct (Hall _ Hinp) as (t0 & Ht0 & Hok). cbn in Ht0, Hok.
    rewrite (NoDup_keys_assoc fields k t Hndf Hin) in Ht0.
    injection Ht0 as <-. now rewrite <- (Hagree k t x Hin).
  - (* the declared fields are fine, so the entries are *)
    cbn [entries]. apply Forall_forall. intros [k x] Hinp.
    apply list_elem_of_In in Hinp. cbn [fst snd].
    assert (Hk : In k (map fst fields)).
    { apply Hkeys, in_map_iff. exists (k, x). auto. }
    apply in_map_iff in Hk as ([k1 t] & Hk1 & Hin). cbn in Hk1. subst k1.
    exists t. split; [now apply NoDup_keys_assoc|].
    rewrite Forall_forall in Hall.
    assert (Hin' : In (k, to_class t)
                      (map (fun '(k, t) => (k, to_class t)) fields)).
    { apply in_map_iff. exists (k, t). auto. }
    apply list_elem_of_In in Hin'. specialize (Hall _ Hin').
    cbn [fst snd get] in Hall.
    rewrite (NoDup_keys_assoc props k x Hndp Hinp) in Hall. cbn in Hall.
    now rewrite (Hagree k t x Hin).
Qed.

Lemma encodings_agree_on_objects_with_exactly_the_declared_keys_witness :
  let fields := [("a", Schema.ZodString);
                 ("b", Schema.ZodArray Schema.ZodNumber)] in
  let props := [("b", VArray [VNumber 1]); ("a", VNumber 2)] in
  succeeds (Schema.parse (Schema.ZodObject fields) (VObject props))
    = succeeds (parse (to_class (Schema.ZodObject fields)) (VObject props)).
Proof.
  intros fields props.
  apply (encodings_agree_on_objects_with_exactly_the_declared_keys
           fields props).
  - cbn. apply (bool_decide_unpack _). reflexivity.
  - cbn. apply (bool_decide_unpack _). reflexivity.
  - intros k. cbn. tauto.
  - intros k t x [[= <- <-]|[[= <- <-]|[]]];
      now apply encodings_agree_without_objects.
Defined.

(** X27.  With checkers that return on the input, a refined leaf accepts
    exactly the values of its type on which every checker returns true:
    [ZodString] the strings, [ZodNumber] the numbers. *)
Theorem leaf_accepts_iff_every_checker_passes
    (this : option ZodStringDefine) (nthis : option ZodNumberDefine)
    (v : value) :
  (forall s, v = VString s -> Forall (returns s) (checkers_of_string this)) ->
  (forall z, v = VNumber z -> Forall (returns z) (checkers_of_number nthis)) ->
  (succeeds (parse (ZodString_create this) v) = true <->
   exists s, v = VString s /\ Forall (passes s) (checkers_of_string this)) /\
  (succeeds (parse (ZodNumber_create nthis) v) = true <->
   exists z, v = VNumber z /\ Forall (passes z) (checkers_of_number nthis)).
Proof.
  intros Hs Hz. unfold ZodString_create, ZodNumber_create. split.
  - destruct v; cbn;
      try (split; [discriminate|intros (s' & H & _); discriminate]).
    pose proof (run_checkers_succeeds_iff _ s (Hs s eq_refl)) as Hiff.
    destruct (run_checkers (checkers_of_string this) s) as [[]|e]; cbn; split.
    + intros _. exists s. split; [reflexivity|]. now apply Hiff.
    + reflexivity.
    + discriminate.
    + intros (s' & [= <-] & H). apply Hiff in H. discriminate.
  - destruct v; cbn;
      try (split; [discriminate|intros (z' & H & _); discriminate]).
    pose proof (run_checkers_succeeds_iff _ n (Hz n eq_refl)) as Hiff.
    destruct (run_checkers (checkers_of_number nthis) n) as [[]|e]; cbn; split.
    + intros _. exists n. split; [reflexivity|]. now apply Hiff.
    + reflexivity.
    + discriminate.
    + intros (z' & [= <-] & H). apply Hiff in H. discriminate.
Qed.

Lemma leaf_accepts_iff_every_checker_passes_witness :
  let this := ZodString_definition (ZodString_min None 2) in
  succeeds (parse (ZodString_create this) (VString "a")) = true <->
  exists s, VString "a" = VString s /\
            Forall (passes s) (checkers_of_string this).
Proof.
  intros this.
  assert (Hs : forall s, VString "a" = VString s ->
                         Forall (returns s) (checkers_of_string this)).
  { intros s _. repeat constructor. eexists. reflexivity. }
  assert (Hz : forall z, VString "a" = VNumber z ->
                         Forall (returns z) (checkers_of_number None)).
  { intros z _. constructor. }
  exact (proj1 (leaf_accepts_iff_every_checker_passes
                  this None (VString "a") Hs Hz)).
Defined.
